(** * Abacus-Collection-Replica daemon: polling cycle and concurrency driver

    Shallow embedding of [lib/rucio/daemons/abacus/collection_replica.py]
    ([run_once], [collection_replica_update], [stop], [run]) and the
    properties of its specification.

    The Python code calls external collaborators (heartbeat handler, work
    source, work applier, loggers, threads) and may raise.  It is embedded in
    a state-and-exception monad that also writes a ghost log of the calls
    made, so that statements such as "the applier is called exactly three
    times, in order" are statements about that log. *)

From Stdlib Require Import ZArith List String Bool Lia.
Import ListNotations.
Open Scope Z_scope.

(* ================================================================= *)
(** * Exceptions, outcomes and the monad *)

(** The exceptions a run can end with: the one [run] raises itself, the
    [IndexError] of a list access out of range, and any error raised by an
    external collaborator. *)
Inductive Exn : Type :=
| DatabaseException (msg : string)
| IndexError
| Failure (code : nat).

Inductive Res (A : Type) : Type :=
| Ok (a : A)
| Raise (x : Exn).
Arguments Ok {A} a.
Arguments Raise {A} x.

(** A computation takes the state, returns or raises, leaves a state (the
    effects made before an exception persist) and the log of what it did. *)
Definition M (St Ev A : Type) : Type := St -> Res A * St * list Ev.

Definition ret {St Ev A} (a : A) : M St Ev A :=
  fun s => (Ok a, s, []).

Definition raise {St Ev A} (x : Exn) : M St Ev A :=
  fun s => (Raise x, s, []).

Definition bind {St Ev A B} (c : M St Ev A) (k : A -> M St Ev B) : M St Ev B :=
  fun s =>
    match c s with
    | (Ok a, s1, t1) => let '(r, s2, t2) := k a s1 in (r, s2, t1 ++ t2)
    | (Raise x, s1, t1) => (Raise x, s1, t1)
    end.

Notation "x <- c ;; k" := (bind c (fun x => k))
  (at level 100, c at next level, right associativity).
Notation "' p <- c ;; k" := (bind c (fun p => k))
  (at level 100, p pattern, c at next level, right associativity).
Notation "c ;;; k" := (bind c (fun _ => k))
  (at level 100, right associativity).

Definition outcome {A St Ev} (r : Res A * St * list Ev) : Res A := fst (fst r).
Definition final {A St Ev} (r : Res A * St * list Ev) : St := snd (fst r).
Definition trace {A St Ev} (r : Res A * St * list Ev) : list Ev := snd r.

(* ================================================================= *)
(** * Data model *)

(** A work item: a dict of which the daemon reads only ['id'] (for its log
    line); the rest is for the applier. *)
Record Replica : Type := mkReplica { id : string; payload : nat }.

Inductive Level : Type := DEBUG | INFO.

(** [len(replicas)] *)
Definition len {A} (l : list A) : Z := Z.of_nat (List.length l).

(** Truth value of a Python [int]. *)
Definition truthy (n : Z) : bool := negb (n =? 0).

Definition DAEMON_NAME : string := "abacus-collection-replica".

Section PollingCycle.

(** State of everything outside the daemon's code: database, heartbeat
    registry, log sink, clock. *)
Context {X : Type}.
(** Readings of [time.time()] and their differences. *)
Context {Time : Type}.

(** The module-level [graceful_stop] event together with the outside
    world. *)
Record Env : Type := mkEnv { graceful_stop : bool; ext : X }.

(** [stop(signum, frame)]: [graceful_stop.set()].  Nothing in the module
    clears the event. *)
Definition stop (s : Env) : Env :=
  {| graceful_stop := true; ext := ext s |}.

(** A call to an external collaborator works on the outside world; it does
    not hold [graceful_stop].  It returns or raises, leaves the outside
    world changed, and [stop] may have run (on an interrupt) while the call
    was in progress: the last component tells whether it did.  Interrupts
    are taken at these calls; [graceful_stop.is_set()] and [time.time()] are
    immediate. *)
Definition External (A : Type) : Type := X -> Res A * X * bool.

(** The module's state when such a call comes back. *)
Definition after (s : Env) (x' : X) (interrupted : bool) : Env :=
  let s' := {| graceful_stop := graceful_stop s; ext := x' |} in
  if interrupted then stop s' else s'.

Inductive LogMsg : Type :=
| IndexQueryTime (dt : Time) (size : Z)
| DidNotGetAnyWork
| UpdateTook (rid : string) (dt : Time).

(** A logger writes its line and returns; it does not raise. *)
Definition Logger : Type := Level -> LogMsg -> X -> X * bool.

(** [HeartbeatHandler]: [live()] returns
    [(worker_number, total_workers, logger)]. *)
Record HeartbeatHandler : Type :=
  { live : External (Z * Z * Logger) }.

(** [time.time()] reads the clock of the outside world. *)
Variable time_time : X -> Time.
Variable elapsed : Time -> Time -> Time.
(** [rucio.core.replica]: arguments [total_workers], [worker_number],
    [limit]. *)
Variable get_cleaned_updated_collection_replicas :
  Z -> Z -> Z -> External (list Replica).
Variable update_collection_replica : Replica -> External unit.

(** ** Ghost log *)

Inductive Event : Type :=
| ELive (out : Res (Z * Z))
| EFetch (total_workers worker_number limit : Z) (out : Res (list Replica))
| ELog (lvl : Level) (msg : LogMsg)
| EIsSet (b : bool)
| EApply (replica : Replica) (out : Res unit).

(** Each entry also records whether [graceful_stop] was set when the call
    returned. *)
Record Entry : Type := mkEntry { ev : Event; stop_after : bool }.

Definition Cycle : Type -> Type := M Env Entry.

Definition observe (e : Event) (s : Env) : list Entry :=
  [ {| ev := e; stop_after := graceful_stop s |} ].

Definition assignment (r : Res (Z * Z * Logger)) : Res (Z * Z) :=
  match r with
  | Ok (worker_number, total_workers, _) => Ok (worker_number, total_workers)
  | Raise x => Raise x
  end.

(** ** The calls the cycle makes *)

(** A call to a collaborator, entered in the log. *)
Definition call {A} (c : External A) (e : Res A -> Event) : Cycle A :=
  fun s => let '(r, x', interrupted) := c (ext s) in
           let s' := after s x' interrupted in
           (r, s', observe (e r) s').

Definition hb_live (heartbeat_handler : HeartbeatHandler)
  : Cycle (Z * Z * Logger) :=
  call (live heartbeat_handler) (fun r => ELive (assignment r)).

Definition time : Cycle Time :=
  fun s => (Ok (time_time (ext s)), s, []).

Definition fetch (total_workers worker_number limit : Z)
  : Cycle (list Replica) :=
  call (get_cleaned_updated_collection_replicas total_workers worker_number limit)
       (EFetch total_workers worker_number limit).

Definition log (logger : Logger) (lvl : Level) (msg : LogMsg) : Cycle unit :=
  call (fun x => let (x', interrupted) := logger lvl msg x in
                 (Ok tt, x', interrupted))
       (fun _ => ELog lvl msg).

(** The state a log line leaves. *)
Definition logged (logger : Logger) (lvl : Level) (msg : LogMsg) (s : Env)
  : Env :=
  let (x', interrupted) := logger lvl msg (ext s) in after s x' interrupted.

(** [graceful_stop.is_set()] *)
Definition is_set : Cycle bool :=
  fun s => (Ok (graceful_stop s), s, observe (EIsSet (graceful_stop s)) s).

Definition apply (replica : Replica) : Cycle unit :=
  call (update_collection_replica replica) (EApply replica).

(** ** [run_once] *)

(** The [for replica in replicas] loop; [break] ends it. *)
Fixpoint for_replicas (heartbeat_handler : HeartbeatHandler)
    (replicas : list Replica) : Cycle unit :=
  match replicas with
  | [] => ret tt
  | replica :: rest =>
      '(worker_number, total_workers, logger) <- hb_live heartbeat_handler ;;
      stopping <- is_set ;;
      if stopping : bool then ret tt
      else
        start_time <- time ;;
        apply replica ;;;
        now <- time ;;
        log logger DEBUG (UpdateTook (id replica) (elapsed now start_time)) ;;;
        for_replicas heartbeat_handler rest
  end.

Definition run_once (heartbeat_handler : HeartbeatHandler) (limit : Z)
  : Cycle bool :=
  '(worker_number, total_workers, logger) <- hb_live heartbeat_handler ;;
  start <- time ;;
  replicas <- fetch (total_workers - 1) worker_number limit ;;
  now <- time ;;
  log logger DEBUG (IndexQueryTime (elapsed now start) (len replicas)) ;;;
  match replicas with
  | [] =>
      log logger INFO DidNotGetAnyWork ;;;
      ret true
  | _ :: _ =>
      for_replicas heartbeat_handler replicas ;;;
      let must_sleep := false in
      let must_sleep :=
        if truthy limit && (len replicas <? limit) then true else must_sleep in
      ret must_sleep
  end.

(** ** Reading the ghost log *)

(** The items the applier was called on, in call order. *)
Fixpoint applied (tr : list Entry) : list Replica :=
  match tr with
  | [] => []
  | en :: tr' =>
      match ev en with
      | EApply replica _ => replica :: applied tr'
      | _ => applied tr'
      end
  end.

(** The arguments [(total_workers, worker_number, limit)] of the calls to
    the work source. *)
Fixpoint fetch_calls (tr : list Entry) : list (Z * Z * Z) :=
  match tr with
  | [] => []
  | en :: tr' =>
      match ev en with
      | EFetch total_workers worker_number limit _ =>
          (total_workers, worker_number, limit) :: fetch_calls tr'
      | _ => fetch_calls tr'
      end
  end.

(** The exception a logged call ended with, if it raised. *)
Definition raised (e : Event) : option Exn :=
  match e with
  | ELive (Raise x) => Some x
  | EFetch _ _ _ (Raise x) => Some x
  | EApply _ (Raise x) => Some x
  | _ => None
  end.

(** No call in the log raised. *)
Definition clean (tr : list Entry) : Prop :=
  Forall (fun en => raised (ev en) = None) tr.

(** A run stops at the first call that raises and ends with its
    exception; a run that returns has made only clean calls. *)
Definition disciplined {A} (r : Res A * Env * list Entry) : Prop :=
  match outcome r with
  | Ok _ => clean (trace r)
  | Raise x =>
      exists t en, trace r = t ++ [en] /\ clean t /\ raised (ev en) = Some x
  end.

(** After an entry that found [graceful_stop] set, the applier is not
    called again. *)
Definition halted (tr : list Entry) : Prop :=
  forall t1 en t2,
    tr = t1 ++ en :: t2 -> stop_after en = true -> applied t2 = [].

(** The items whose update returned. *)
Fixpoint updated (tr : list Entry) : list Replica :=
  match tr with
  | [] => []
  | en :: tr' =>
      match ev en with
      | EApply replica (Ok _) => replica :: updated tr'
      | _ => updated tr'
      end
  end.

(** The item ids named by the per-item debug lines
    ['update of collection replica "%s" took %f']. *)
Fixpoint update_lines (tr : list Entry) : list string :=
  match tr with
  | [] => []
  | en :: tr' =>
      match ev en with
      | ELog DEBUG (UpdateTook rid _) => rid :: update_lines tr'
      | _ => update_lines tr'
      end
  end.

Definition is_apply (e : Event) : bool :=
  match e with
  | EApply _ _ => true
  | _ => false
  end.

(** The log ends with a [live()] that returned and a stop check that
    answered no, both with [graceful_stop] unset. *)
Definition checked (before : list Entry) : Prop :=
  exists t0 worker_number total_workers,
    before = t0 ++ [ {| ev := ELive (Ok (worker_number, total_workers));
                        stop_after := false |};
                     {| ev := EIsSet false; stop_after := false |} ].

(** In the log [tr], which continues the log [pre], every call to the
    applier comes right after such a check. *)
Definition guarded (pre tr : list Entry) : Prop :=
  forall t1 en t2,
    tr = t1 ++ en :: t2 -> is_apply (ev en) = true -> checked (pre ++ t1).

End PollingCycle.

Arguments Env : clear implicits.
Arguments HeartbeatHandler : clear implicits.
Arguments Logger : clear implicits.
Arguments External : clear implicits.
Arguments LogMsg : clear implicits.
Arguments Event : clear implicits.
Arguments Entry : clear implicits.
Arguments Cycle : clear implicits.

(* ================================================================= *)
(** * The concurrency driver *)

(** The [kwargs] dict given to each [threading.Thread]. *)
Record Kwargs : Type :=
  mkKwargs { kw_once : bool; kw_sleep_time : Z; kw_limit : Z }.

(** A [threading.Thread(target=collection_replica_update, kwargs=...)]; the
    threads of a run are numbered in creation order. *)
Record Thread : Type := mkThread { ident : nat; kwargs : Kwargs }.

(** How a call of [run] that does not raise stands after the given number
    of rounds of its [while] loop: it has returned, or it is still in the
    loop. *)
Inductive Completion : Type := Returned | StillWaiting.

(** A default argument of a Python function. *)
Definition default_to {A} (d : A) (given : option A) : A :=
  match given with
  | Some a => a
  | None => d
  end.

Section ConcurrencyDriver.

Context {X Time : Type}.
Variable time_time : X -> Time.
Variable elapsed : Time -> Time -> Time.
Variable get_cleaned_updated_collection_replicas :
  Z -> Z -> Z -> External X (list Replica).
Variable update_collection_replica : Replica -> External X unit.

(** [rucio.db.sqla.util.is_old_db()] reads the schema version of the
    database. *)
Variable is_old_db : X -> bool.

(** [rucio.daemons.common.run_daemon] is imported by the module, not
    defined in it.  Its arguments here: [once], [executable],
    [partition_wait_time], [sleep_time], [run_once_fnc]; [graceful_stop]
    is part of [Env]. *)
Variable run_daemon :
  bool -> string -> Z -> Z ->
  (HeartbeatHandler X Time -> Cycle X Time bool) -> Cycle X Time unit.

(** The scheduler: [is_alive_at i t] tells whether the loop of the thread
    numbered [i] is still running at time [t], counted in join timeouts. *)
Variable is_alive_at : nat -> nat -> bool.

(** [collection_replica_update(once=False, limit=1000, sleep_time=10)];
    [functools.partial(run_once, limit=limit)] is the closure over
    [limit]. *)
Definition collection_replica_update
    (once : option bool) (limit sleep_time : option Z) : Cycle X Time unit :=
  let once := default_to false once in
  let limit := default_to 1000 limit in
  let sleep_time := default_to 10 sleep_time in
  run_daemon once DAEMON_NAME 1 sleep_time
    (fun heartbeat_handler =>
       run_once time_time elapsed get_cleaned_updated_collection_replicas
         update_collection_replica heartbeat_handler limit).

(** What a started thread executes. *)
Definition target (t : Thread) : Cycle X Time unit :=
  collection_replica_update (Some (kw_once (kwargs t)))
    (Some (kw_limit (kwargs t))) (Some (kw_sleep_time (kwargs t))).

(** The process as the thread that calls [run] sees it: the outside world
    as its own synchronous calls left it, and the time.  What the launched
    loops do to the outside world while the driver waits is not followed;
    of them the driver only observes [is_alive]. *)
Record Proc : Type := mkProc { env : Env X; clock : nat }.

Inductive DEvent : Type :=
| SetupLogging (process_name : string)
| IsOldDb (b : bool)
| LoggingInfo (msg : string)
| InThisThread (did : list (Entry Time)) (out : Res unit)
| ThreadStart (t : Thread)
| IsAlive (i : nat) (b : bool)
| Join (i : nat).

Definition Driver : Type -> Type := M Proc DEvent.

Definition setup_logging (process_name : string) : Driver unit :=
  fun p => (Ok tt, p, [SetupLogging process_name]).

Definition check_old_db : Driver bool :=
  fun p => let old := is_old_db (ext (env p)) in (Ok old, p, [IsOldDb old]).

Definition logging_info (msg : string) : Driver unit :=
  fun p => (Ok tt, p, [LoggingInfo msg]).

(** A call made by the driver itself, in its own thread. *)
Definition in_this_thread (c : Cycle X Time unit) : Driver unit :=
  fun p => let '(r, s', did) := c (env p) in
           (r, {| env := s'; clock := clock p |}, [InThisThread did r]).

Definition start (t : Thread) : Driver unit :=
  fun p => (Ok tt, p, [ThreadStart t]).

Definition is_alive (t : Thread) : Driver bool :=
  fun p => (Ok (is_alive_at (ident t) (clock p)), p,
            [IsAlive (ident t) (is_alive_at (ident t) (clock p))]).

(** [t.join(timeout=3.14)]: returns at once for a thread that has ended,
    and otherwise one unit of [clock] later (the thread ended within it, or
    the timeout passed). *)
Definition join (t : Thread) : Driver unit :=
  fun p =>
    let p' := if is_alive_at (ident t) (clock p)
              then {| env := env p; clock := S (clock p) |} else p in
    (Ok tt, p', [Join (ident t)]).

(** [thread_list[i]] *)
Definition item (thread_list : list Thread) (i : nat) : Driver Thread :=
  match nth_error thread_list i with
  | Some t => ret t
  | None => raise IndexError
  end.

(** [[f(t) for t in thread_list]], results dropped. *)
Fixpoint for_each (f : Thread -> Driver unit) (thread_list : list Thread)
  : Driver unit :=
  match thread_list with
  | [] => ret tt
  | t :: rest => f t ;;; for_each f rest
  end.

(** [while thread_list[0].is_alive(): [t.join(timeout=3.14) for t in
    thread_list]], for at most [fuel] evaluations of the condition. *)
Fixpoint wait (fuel : nat) (thread_list : list Thread) : Driver Completion :=
  match fuel with
  | O => ret StillWaiting
  | S fuel' =>
      first <- item thread_list 0 ;;
      alive <- is_alive first ;;
      if alive : bool then
        for_each join thread_list ;;;
        wait fuel' thread_list
      else ret Returned
  end.

(** [range(0, threads)] *)
Definition range0 (threads : Z) : list nat := seq 0 (Z.to_nat threads).

(** [run(once=False, threads=1, sleep_time=10, limit=1000)] *)
Definition run (fuel : nat) (once : bool) (threads sleep_time limit : Z)
  : Driver Completion :=
  setup_logging DAEMON_NAME ;;;
  old <- check_old_db ;;
  if old : bool then
    raise (DatabaseException "Database was not updated, daemon won't start")
  else if once then
    logging_info "main: executing one iteration only" ;;;
    in_this_thread (collection_replica_update (Some once) None None) ;;;
    ret Returned
  else
    logging_info "main: starting threads" ;;;
    let thread_list :=
      map (fun i => {| ident := i;
                       kwargs := {| kw_once := once;
                                    kw_sleep_time := sleep_time;
                                    kw_limit := limit |} |})
          (range0 threads) in
    for_each start thread_list ;;;
    logging_info "main: waiting for interrupts" ;;;
    wait fuel thread_list.

(** ** Reading the driver's log *)

(** The threads [run] creates when [once] is false. *)
Definition threads_of (threads sleep_time limit : Z) : list Thread :=
  map (fun i => {| ident := i;
                   kwargs := {| kw_once := false;
                                kw_sleep_time := sleep_time;
                                kw_limit := limit |} |})
      (range0 threads).

(** The log of [n] rounds of the [while] loop: the first thread is found
    alive, then every thread is joined, in list order. *)
Fixpoint polling_rounds (n : nat) (thread_list : list Thread)
  : list DEvent :=
  match n with
  | O => []
  | S n' => IsAlive 0 true :: map (fun t => Join (ident t)) thread_list
              ++ polling_rounds n' thread_list
  end.

(** The threads started, in order. *)
Fixpoint started (tr : list DEvent) : list Thread :=
  match tr with
  | [] => []
  | ThreadStart t :: tr' => t :: started tr'
  | _ :: tr' => started tr'
  end.

(** The loops run in the calling thread: what each did. *)
Fixpoint in_thread (tr : list DEvent) : list (list (Entry Time)) :=
  match tr with
  | [] => []
  | InThisThread did _ :: tr' => did :: in_thread tr'
  | _ :: tr' => in_thread tr'
  end.

(** The threads whose liveness was asked. *)
Fixpoint asked_alive (tr : list DEvent) : list nat :=
  match tr with
  | [] => []
  | IsAlive i _ :: tr' => i :: asked_alive tr'
  | _ :: tr' => asked_alive tr'
  end.

End ConcurrencyDriver.

Arguments Proc : clear implicits.
Arguments DEvent : clear implicits.
Arguments Driver : clear implicits.

(* ================================================================= *)
(** * A small concrete world

    The outside world is the number of applier calls made so far; the clock
    is not observed.  The heartbeat registry reports a fixed assignment, the
    work source returns a fixed batch, and the applier can be told to fail on
    its [fail_at]-th call and to be interrupted during its [stop_at]-th call
    (the operator's interrupt arrives, [stop] runs). *)

Module Sim.

Definition World : Type := Env nat.

Definition quiet_logger : Logger nat unit := fun _ _ x => (x, false).

Definition registry (worker_number total_workers : Z)
  : HeartbeatHandler nat unit :=
  {| live := fun x =>
       (Ok (worker_number, total_workers, quiet_logger), x, false) |}.

Definition source (batch : list Replica)
  : Z -> Z -> Z -> External nat (list Replica) :=
  fun _ _ _ x => (Ok batch, x, false).

Definition broken_source (code : nat)
  : Z -> Z -> Z -> External nat (list Replica) :=
  fun _ _ _ x => (Raise (Failure code), x, false).

Definition applier (stop_at fail_at : nat) : Replica -> External nat unit :=
  fun _ x =>
    let n := S x in
    (if Nat.eqb n fail_at then Raise (Failure n) else Ok tt,
     n, Nat.eqb n stop_at).

Definition now : nat -> unit := fun _ => tt.
Definition minus : unit -> unit -> unit := fun _ _ => tt.

Definition boot : World := {| graceful_stop := false; ext := O |}.

(** A batch of [n] items with payloads [k+1 .. k+n]. *)
Fixpoint batch_from (k n : nat) : list Replica :=
  match n with
  | O => []
  | S n' => {| id := "did"; payload := S k |} :: batch_from (S k) n'
  end.

Definition cycle (worker_number total_workers : Z) (batch : list Replica)
    (stop_at fail_at : nat) (limit : Z) :=
  run_once now minus (source batch) (applier stop_at fail_at)
    (registry worker_number total_workers) limit boot.

(** The same cycle with a work source that raises. *)
Definition broken_cycle (code : nat) (limit : Z) :=
  run_once now minus (broken_source code) (applier 0 0) (registry 0 1)
    limit boot.

(** The schema check answers [old]. *)
Definition schema (old : bool) : nat -> bool := fun _ => old.

(** A stand-in for [run_daemon] that makes one iteration. *)
Definition one_iteration (once : bool) (executable : string)
    (partition_wait_time sleep_time : Z)
    (run_once_fnc : HeartbeatHandler nat unit -> Cycle nat unit bool)
  : Cycle nat unit unit :=
  run_once_fnc (registry 0 1) ;;; ret tt.

(** The first thread ends at time 2, the others never do. *)
Definition first_ends (i t : nat) : bool :=
  match i with
  | O => Nat.ltb t 2
  | S _ => true
  end.

Definition drive (old : bool) (is_alive_at : nat -> nat -> bool)
    (fuel : nat) (once : bool) (threads sleep_time limit : Z) :=
  run now minus (source (batch_from 0 2)) (applier 0 0) (schema old)
    one_iteration is_alive_at fuel once threads sleep_time limit
    {| env := boot; clock := O |}.

End Sim.


(* ================================================================= *)
(** * Facts about logs *)

Section LogFacts.

Context {Time : Type}.
Implicit Types (tr t : list (Entry Time)) (en : Entry Time).

Lemma applied_app tr t : applied (tr ++ t) = applied tr ++ applied t.
Proof.
  induction tr as [|en tr IH]; simpl; [reflexivity|].
  destruct (ev en); simpl; now rewrite IH.
Qed.

Lemma fetch_calls_app tr t :
  fetch_calls (tr ++ t) = fetch_calls tr ++ fetch_calls t.
Proof.
  induction tr as [|en tr IH]; simpl; [reflexivity|].
  destruct (ev en); simpl; now rewrite IH.
Qed.

(** A log of clean calls followed by one call has its only possible
    raising call at the end. *)
Lemma raising_call_is_last t en t1 en' t2 x :
  clean t -> t ++ [en] = t1 ++ en' :: t2 ->
  raised (ev en') = Some x -> en' = en /\ t2 = [].
Proof.
  revert t1. induction t as [|e t IH]; intros t1 Hc Heq Hr.
  - destruct t1 as [|e1 t1]; simpl in Heq.
    + now inversion Heq.
    + inversion Heq. now destruct t1.
  - inversion Hc as [|? ? He Ht]; subst.
    destruct t1 as [|e1 t1]; simpl in Heq; inversion Heq; subst.
    + congruence.
    + eauto.
Qed.

Lemma firstn_of_length {A} (l : list A) n k :
  List.length (firstn n l) = k -> firstn n l = firstn k l.
Proof.
  revert n k. induction l as [|a l IH]; intros n k H.
  - now rewrite !firstn_nil.
  - destruct n as [|n]; simpl in H; subst k; simpl; [reflexivity|].
    f_equal. now apply IH.
Qed.

End LogFacts.

(* ================================================================= *)
(** * The polling cycle: [run_once] *)

Section PollingCycleFacts.

Context {X Time : Type}.
Variable time_time : X -> Time.
Variable elapsed : Time -> Time -> Time.
Variable source : Z -> Z -> Z -> External X (list Replica).
Variable applier : Replica -> External X unit.

Local Abbreviation loop := (for_replicas time_time elapsed applier).
Local Abbreviation cycle := (run_once time_time elapsed source applier).
Local Abbreviation at_ s e := {| ev := e; stop_after := graceful_stop s |}.

Implicit Types (heartbeat_handler : HeartbeatHandler X Time) (s : Env X).

(** ** [graceful_stop] is set once *)

Lemma ext_after s (x' : X) interrupted : ext (after s x' interrupted) = x'.
Proof. now destruct interrupted. Qed.

Lemma stop_after_call s (x' : X) interrupted :
  graceful_stop (after s x' interrupted) = graceful_stop s || interrupted.
Proof. destruct interrupted; cbn; [now rewrite orb_true_r | now rewrite orb_false_r]. Qed.

Lemma stop_kept s (x' : X) interrupted :
  graceful_stop s = true -> graceful_stop (after s x' interrupted) = true.
Proof. intros H. now rewrite stop_after_call, H. Qed.

Lemma stop_kept_logged (logger : Logger X Time) lvl msg s :
  graceful_stop s = true -> graceful_stop (logged logger lvl msg s) = true.
Proof.
  intros H. unfold logged. destruct (logger lvl msg (ext s)) as [x' i].
  now apply stop_kept.
Qed.

Lemma log_step (logger : Logger X Time) lvl msg s :
  log logger lvl msg s =
  (Ok tt, logged logger lvl msg s, [at_ (logged logger lvl msg s) (ELog lvl msg)]).
Proof.
  unfold log, call, logged.
  now destruct (logger lvl msg (ext s)) as [x' i].
Qed.

(** ** The two functions, call by call *)

Lemma for_replicas_step heartbeat_handler replica rest s :
  loop heartbeat_handler (replica :: rest) s =
  match live heartbeat_handler (ext s) with
  | (Raise x, x1, i1) =>
      let s1 := after s x1 i1 in
      (Raise x, s1, [at_ s1 (ELive (Raise x))])
  | (Ok (worker_number, total_workers, logger), x1, i1) =>
      let s1 := after s x1 i1 in
      let seen := [at_ s1 (ELive (Ok (worker_number, total_workers)));
                   at_ s1 (EIsSet (graceful_stop s1))] in
      if graceful_stop s1 then (Ok tt, s1, seen)
      else
        match applier replica x1 with
        | (Raise x, x2, i2) =>
            let s2 := after s1 x2 i2 in
            (Raise x, s2, seen ++ [at_ s2 (EApply replica (Raise x))])
        | (Ok u, x2, i2) =>
            let s2 := after s1 x2 i2 in
            let msg := UpdateTook (id replica)
                         (elapsed (time_time x2) (time_time x1)) in
            let s3 := logged logger DEBUG msg s2 in
            let '(r, s4, t) := loop heartbeat_handler rest s3 in
            (r, s4,
             seen ++ at_ s2 (EApply replica (Ok u))
                  :: at_ s3 (ELog DEBUG msg) :: t)
        end
  end.
Proof.
  cbn [for_replicas]. unfold bind at 1. unfold hb_live, call, observe.
  destruct (live heartbeat_handler (ext s)) as [[[[[wn tw] lg]|x] x1] i1];
    cbn [assignment]; [|reflexivity].
  cbn zeta. set (s1 := after s x1 i1).
  unfold bind at 1. unfold is_set, observe.
  destruct (graceful_stop s1) eqn:Hs1; [reflexivity|].
  unfold bind at 1. unfold time at 1. unfold bind at 1. unfold apply, call.
  assert (E1 : ext s1 = x1) by apply ext_after. rewrite E1.
  destruct (applier replica x1) as [[[u|x] x2] i2]; [|reflexivity].
  cbn zeta. set (s2 := after s1 x2 i2).
  unfold bind at 1. unfold time at 1. unfold bind at 1.
  assert (E2 : ext s2 = x2) by apply ext_after. rewrite E2.
  rewrite log_step.
  destruct (for_replicas _ _ _ _ _ _) as [[r s4] t]. reflexivity.
Qed.

Lemma run_once_step heartbeat_handler limit s :
  cycle heartbeat_handler limit s =
  match live heartbeat_handler (ext s) with
  | (Raise x, x1, i1) =>
      let s1 := after s x1 i1 in
      (Raise x, s1, [at_ s1 (ELive (Raise x))])
  | (Ok (worker_number, total_workers, logger), x1, i1) =>
      let s1 := after s x1 i1 in
      let lived := at_ s1 (ELive (Ok (worker_number, total_workers))) in
      let fetched := EFetch (total_workers - 1) worker_number limit in
      match source (total_workers - 1) worker_number limit x1 with
      | (Raise x, x2, i2) =>
          let s2 := after s1 x2 i2 in
          (Raise x, s2, [lived; at_ s2 (fetched (Raise x))])
      | (Ok replicas, x2, i2) =>
          let s2 := after s1 x2 i2 in
          let msg := IndexQueryTime (elapsed (time_time x2) (time_time x1))
                       (len replicas) in
          let s3 := logged logger DEBUG msg s2 in
          let seen := [lived; at_ s2 (fetched (Ok replicas));
                       at_ s3 (ELog DEBUG msg)] in
          match replicas with
          | [] =>
              let s4 := logged logger INFO DidNotGetAnyWork s3 in
              (Ok true, s4, seen ++ [at_ s4 (ELog INFO DidNotGetAnyWork)])
          | _ :: _ =>
              let '(r, s4, t) := loop heartbeat_handler replicas s3 in
              (match r with
               | Ok _ => Ok (if truthy limit && (len replicas <? limit)
                             then true else false)
               | Raise x => Raise x
               end, s4, seen ++ t)
          end
      end
  end.
Proof.
  unfold run_once. unfold bind at 1. unfold hb_live, call, observe.
  destruct (live heartbeat_handler (ext s)) as [[[[[wn tw] lg]|x] x1] i1];
    cbn [assignment]; [|reflexivity].
  cbn zeta. set (s1 := after s x1 i1).
  unfold bind at 1. unfold time at 1. unfold bind at 1. unfold fetch, call.
  assert (E1 : ext s1 = x1) by apply ext_after. rewrite E1.
  destruct (source (tw - 1) wn limit x1) as [[[replicas|x] x2] i2];
    [|reflexivity].
  cbn zeta. set (s2 := after s1 x2 i2).
  unfold bind at 1. unfold time at 1. unfold bind at 1.
  assert (E2 : ext s2 = x2) by apply ext_after. rewrite E2.
  rewrite log_step.
  destruct replicas as [|replica rest].
  - unfold bind at 1. rewrite log_step. reflexivity.
  - unfold bind at 1.
    destruct (for_replicas _ _ _ _ _ _) as [[[u|x] s4] t]; cbn;
      rewrite ?app_nil_r; reflexivity.
Qed.

(** ** The loop over a batch *)

Lemma loop_disciplined heartbeat_handler replicas :
  forall s, disciplined (loop heartbeat_handler replicas s).
Proof.
  induction replicas as [|replica rest IH]; intros s.
  - constructor.
  - rewrite for_replicas_step.
    destruct (live heartbeat_handler (ext s)) as [[[[[wn tw] lg]|x] x1] i1].
    2:{ eexists [], _. repeat split. constructor. }
    cbn zeta. destruct (graceful_stop (after s x1 i1)).
    { repeat constructor. }
    destruct (applier replica x1) as [[[u|x] x2] i2].
    2:{ eexists _, _. split; [reflexivity|]. split; [|reflexivity].
        repeat constructor. }
    cbn zeta.
    match goal with |- context [for_replicas _ _ _ _ _ ?s3] =>
      specialize (IH s3) end.
    destruct (for_replicas _ _ _ _ _ _) as [[[v|x] s4] t];
      unfold disciplined, outcome, trace in *; cbn in *.
    + repeat constructor. exact IH.
    + destruct IH as (t' & en & -> & Hc & Hr).
      eexists (_ :: _ :: _ :: _ :: t'), en.
      split; [reflexivity|]. split; [|exact Hr].
      repeat constructor. exact Hc.
Qed.

Lemma loop_applied_prefix heartbeat_handler replicas :
  forall s, exists n,
    applied (trace (loop heartbeat_handler replicas s)) = firstn n replicas.
Proof.
  induction replicas as [|replica rest IH]; intros s.
  - now exists O.
  - rewrite for_replicas_step.
    destruct (live heartbeat_handler (ext s)) as [[[[[wn tw] lg]|x] x1] i1].
    2:{ now exists O. }
    cbn zeta. destruct (graceful_stop (after s x1 i1)).
    { now exists O. }
    destruct (applier replica x1) as [[[u|x] x2] i2].
    2:{ now exists 1%nat. }
    cbn zeta.
    match goal with |- context [for_replicas _ _ _ _ _ ?s3] =>
      destruct (IH s3) as [n Hn] end.
    destruct (for_replicas _ _ _ _ _ _) as [[r s4] t].
    exists (S n). cbn in *. now rewrite Hn.
Qed.

Lemma loop_no_fetch heartbeat_handler replicas :
  forall s, fetch_calls (trace (loop heartbeat_handler replicas s)) = [].
Proof.
  induction replicas as [|replica rest IH]; intros s.
  - reflexivity.
  - rewrite for_replicas_step.
    destruct (live heartbeat_handler (ext s)) as [[[[[wn tw] lg]|x] x1] i1];
      [|reflexivity].
    cbn zeta. destruct (graceful_stop (after s x1 i1)); [reflexivity|].
    destruct (applier replica x1) as [[[u|x] x2] i2]; [|reflexivity].
    cbn zeta.
    match goal with |- context [for_replicas _ _ _ _ _ ?s3] =>
      specialize (IH s3) end.
    destruct (for_replicas _ _ _ _ _ _) as [[r s4] t]. exact IH.
Qed.

Lemma halted_nil : halted (@nil (Entry Time)).
Proof. intros [|e t1] en t2 H; discriminate H. Qed.

Lemma halted_cons (en : Entry Time) tr :
  (stop_after en = true -> applied tr = []) ->
  halted tr -> halted (en :: tr).
Proof.
  intros Hen Htr [|e t1] en' t2 Heq Hs; inversion Heq; subst.
  - now apply Hen.
  - now apply (Htr t1 en' t2).
Qed.

(** Entered with [graceful_stop] set, the loop applies nothing; and it
    applies nothing after a call that found it set. *)
Lemma loop_halted heartbeat_handler replicas :
  forall s,
    (graceful_stop s = true ->
     applied (trace (loop heartbeat_handler replicas s)) = []) /\
    halted (trace (loop heartbeat_handler replicas s)).
Proof.
  induction replicas as [|replica rest IH]; intros s.
  - split; [reflexivity | apply halted_nil].
  - rewrite for_replicas_step.
    destruct (live heartbeat_handler (ext s)) as [[[[[wn tw] lg]|x] x1] i1].
    2:{ split; [reflexivity|].
        apply halted_cons; [reflexivity | apply halted_nil]. }
    cbn zeta. pose proof (stop_kept s x1 i1) as Hkept.
    destruct (graceful_stop (after s x1 i1)) eqn:Hs1.
    { split; [reflexivity|].
      repeat (apply halted_cons; [reflexivity|]). apply halted_nil. }
    split; [intros Hs; apply Hkept in Hs; discriminate|].
    destruct (applier replica x1) as [[[u|x] x2] i2].
    2:{ repeat (apply halted_cons; [discriminate || reflexivity|]).
        apply halted_nil. }
    cbn zeta.
    set (s2 := after (after s x1 i1) x2 i2).
    set (msg := UpdateTook _ _).
    destruct (IH (logged lg DEBUG msg s2)) as [IH0 IHh].
    destruct (for_replicas _ _ _ _ _ _) as [[r s4] t].
    unfold trace in *; cbn [snd app] in *.
    apply halted_cons; [cbn; discriminate|].
    apply halted_cons; [cbn; discriminate|].
    apply halted_cons.
    { cbn. intros Hs2. apply IH0. now apply stop_kept_logged. }
    apply halted_cons; [exact IH0 | exact IHh].
Qed.

Lemma cycle_disciplined heartbeat_handler limit s :
  disciplined (cycle heartbeat_handler limit s).
Proof.
  rewrite run_once_step.
  destruct (live heartbeat_handler (ext s)) as [[[[[wn tw] lg]|x] x1] i1].
  2:{ eexists [], _. repeat split. constructor. }
  cbn zeta.
  destruct (source (tw - 1) wn limit x1) as [[[replicas|x] x2] i2].
  2:{ eexists [_], _. split; [reflexivity|]. split; [|reflexivity].
      repeat constructor. }
  cbn zeta. destruct replicas as [|replica rest].
  { repeat constructor. }
  match goal with |- context [for_replicas _ _ _ _ ?rs ?s3] =>
    pose proof (loop_disciplined heartbeat_handler rs s3) as D end.
  destruct (for_replicas _ _ _ _ _ _) as [[[v|x] s4] t];
    unfold disciplined, outcome, trace in *; cbn in *.
  - repeat constructor. exact D.
  - destruct D as (t' & en & -> & Hc & Hr).
    eexists (_ :: _ :: _ :: t'), en.
    split; [reflexivity|]. split; [|exact Hr].
    repeat constructor. exact Hc.
Qed.

Lemma disciplined_raise {A} (r : Res A * Env X * list (Entry Time))
    t1 en t2 x :
  disciplined r -> trace r = t1 ++ en :: t2 -> raised (ev en) = Some x ->
  outcome r = Raise x /\ t2 = [].
Proof.
  unfold disciplined. intros D Heq Hr.
  destruct (outcome r) as [a|y].
  - rewrite Heq in D. apply Forall_app in D as [_ D].
    inversion D; congruence.
  - destruct D as (t & en' & Ht & Hc & Hy). rewrite Ht in Heq.
    destruct (raising_call_is_last _ _ _ _ _ _ Hc Heq Hr) as [-> ->].
    split; [congruence | reflexivity].
Qed.

Lemma disciplined_clean {A} (r : Res A * Env X * list (Entry Time)) :
  disciplined r -> clean (trace r) -> exists a, outcome r = Ok a.
Proof.
  unfold disciplined. intros D Hc. destruct (outcome r) as [a|y].
  - now exists a.
  - destruct D as (t & en & Ht & _ & Hy). rewrite Ht in Hc.
    apply Forall_app in Hc as [_ Hc]. inversion Hc; congruence.
Qed.

(** ** The properties of a cycle *)

(** C1, as amended.  In a cycle in which the work source returns a batch of
    [k] items, the value [run_once] returns is [k < limit] when [limit > 0];
    when [limit <= 0] it is false for every batch that is not empty and
    true for the empty batch.  The cycle does return when no call in it
    raises. *)
Theorem must_sleep_by_batch_size heartbeat_handler limit s
    worker_number total_workers logger x1 i1 replicas x2 i2 :
  live heartbeat_handler (ext s)
  = (Ok (worker_number, total_workers, logger), x1, i1) ->
  source (total_workers - 1) worker_number limit x1 = (Ok replicas, x2, i2) ->
  let r := cycle heartbeat_handler limit s in
  let must_sleep :=
    if 0 <? limit then len replicas <? limit else len replicas =? 0 in
  (forall b, outcome r = Ok b -> b = must_sleep) /\
  (clean (trace r) -> outcome r = Ok must_sleep).
Proof.
  intros Hlive Hfetch r must_sleep.
  assert (Hval : forall b, outcome r = Ok b -> b = must_sleep).
  { subst r must_sleep. intros b.
    rewrite run_once_step, Hlive. cbn zeta. rewrite Hfetch. cbn zeta.
    destruct replicas as [|replica rest].
    - unfold outcome; cbn. intros [= <-].
      change (len (@nil Replica)) with 0. now destruct (0 <? limit).
    - destruct (for_replicas _ _ _ _ _ _) as [[[v|x] s4] t];
        unfold outcome; cbn [fst]; intros [= <-].
      assert (1 <= len (replica :: rest)) by (unfold len; cbn; lia).
      unfold truthy.
      destruct (Z.eqb_spec limit 0), (Z.ltb_spec (len (replica :: rest)) limit),
        (Z.ltb_spec 0 limit), (Z.eqb_spec (len (replica :: rest)) 0);
        cbn; reflexivity || lia. }
  split; [exact Hval|].
  intros Hclean.
  destruct (disciplined_clean _ (cycle_disciplined heartbeat_handler limit s)
              Hclean) as [b Hb].
  fold r in Hb. rewrite Hb. f_equal. now apply Hval.
Qed.

(** C2, as amended.  The one call to the work source in a cycle has for
    [total_workers] the value [heartbeat_handler.live()] returned at the
    start of the cycle minus one, and for [worker_number] and [limit] the
    value returned by [live()] and the configured limit, unchanged. *)
Theorem fetch_scoped_to_assignment heartbeat_handler limit s
    worker_number total_workers logger x1 i1 :
  live heartbeat_handler (ext s)
  = (Ok (worker_number, total_workers, logger), x1, i1) ->
  fetch_calls (trace (cycle heartbeat_handler limit s)) =
  [(total_workers - 1, worker_number, limit)].
Proof.
  intros Hlive. rewrite run_once_step, Hlive. cbn zeta.
  destruct (source _ _ _ _) as [[[replicas|x] x2] i2]; [|reflexivity].
  cbn zeta. destruct replicas as [|replica rest]; [reflexivity|].
  match goal with |- context [for_replicas _ _ _ _ ?rs ?s3] =>
    pose proof (loop_no_fetch heartbeat_handler rs s3) as Hn end.
  destruct (for_replicas _ _ _ _ _ _) as [[r s4] t].
  unfold trace in *; cbn in *. now rewrite Hn.
Qed.

(** C3.  In a cycle over a fetched batch: if [graceful_stop] is set when
    the cycle starts the applier is not called; after any call that found
    it set the applier is not called again; the items applied are an
    initial segment of the batch, in the order returned, each applied once
    (there is no call that undoes one); and if it is found set at a point
    by which [k] items were applied (after the 3rd of 10), exactly the
    first [k] items of the batch are applied in the cycle. *)
Theorem cooperative_stop heartbeat_handler limit s
    worker_number total_workers logger x1 i1 replicas x2 i2 :
  live heartbeat_handler (ext s)
  = (Ok (worker_number, total_workers, logger), x1, i1) ->
  source (total_workers - 1) worker_number limit x1 = (Ok replicas, x2, i2) ->
  let tr := trace (cycle heartbeat_handler limit s) in
  (graceful_stop s = true -> applied tr = []) /\
  (forall t1 en t2,
      tr = t1 ++ en :: t2 -> stop_after en = true -> applied t2 = []) /\
  (exists n, applied tr = firstn n replicas) /\
  (forall t1 en t2 k,
      tr = t1 ++ en :: t2 -> stop_after en = true ->
      List.length (applied (t1 ++ [en])) = k ->
      applied tr = firstn k replicas /\ List.length (applied tr) = k).
Proof.
  intros Hlive Hfetch tr.
  assert (Hstart : graceful_stop s = true -> applied tr = []).
  { subst tr. rewrite run_once_step, Hlive. cbn zeta.
    rewrite Hfetch. cbn zeta. intros Hs.
    destruct replicas as [|replica rest]; [reflexivity|].
    match goal with |- context [for_replicas _ _ _ _ ?rs ?s3] =>
      destruct (loop_halted heartbeat_handler rs s3) as [H0 _] end.
    destruct (for_replicas _ _ _ _ _ _) as [[r s4] t].
    unfold trace in *; cbn in *. apply H0.
    apply stop_kept_logged. now do 2 apply stop_kept. }
  assert (Hhalt : halted tr).
  { subst tr. rewrite run_once_step, Hlive. cbn zeta.
    rewrite Hfetch. cbn zeta.
    destruct replicas as [|replica rest].
    { repeat (apply halted_cons; [reflexivity|]). apply halted_nil. }
    match goal with |- context [for_replicas _ _ _ _ ?rs ?s3] =>
      destruct (loop_halted heartbeat_handler rs s3) as [H0 Hh] end.
    destruct (for_replicas _ _ _ _ _ _) as [[r s4] t].
    unfold trace in *; cbn [snd app] in *.
    apply halted_cons.
    { cbn. intros Hs. apply H0. apply stop_kept_logged. now apply stop_kept. }
    apply halted_cons.
    { cbn. intros Hs. apply H0. now apply stop_kept_logged. }
    apply halted_cons; [exact H0 | exact Hh]. }
  assert (Hprefix : exists n, applied tr = firstn n replicas).
  { subst tr. rewrite run_once_step, Hlive. cbn zeta.
    rewrite Hfetch. cbn zeta.
    destruct replicas as [|replica rest]; [now exists O|].
    match goal with |- context [for_replicas _ _ _ _ ?rs ?s3] =>
      destruct (loop_applied_prefix heartbeat_handler rs s3) as [n Hn] end.
    destruct (for_replicas _ _ _ _ _ _) as [[r s4] t].
    exists n. exact Hn. }
  split; [exact Hstart|]. split; [exact Hhalt|]. split; [exact Hprefix|].
  intros t1 en t2 k Heq Hs Hk.
  assert (Happ : applied tr = applied (t1 ++ [en])).
  { rewrite Heq.
    change (t1 ++ en :: t2) with (t1 ++ [en] ++ t2).
    rewrite app_assoc, applied_app, (Hhalt _ _ _ Heq Hs).
    apply app_nil_r. }
  split; [|now rewrite Happ].
  destruct Hprefix as [n Hn].
  rewrite Hn. apply firstn_of_length. now rewrite <- Hn, Happ.
Qed.

(** C4.  When the work source returns no item, whatever the limit, the
    cycle makes no call to the applier, logs the batch at debug level and
    then "did not get any work" at informational level, and returns true
    at once. *)
Theorem empty_batch_sleeps heartbeat_handler limit s
    worker_number total_workers logger x1 i1 x2 i2 :
  live heartbeat_handler (ext s)
  = (Ok (worker_number, total_workers, logger), x1, i1) ->
  source (total_workers - 1) worker_number limit x1 = (Ok [], x2, i2) ->
  outcome (cycle heartbeat_handler limit s) = Ok true /\
  applied (trace (cycle heartbeat_handler limit s)) = [] /\
  map ev (trace (cycle heartbeat_handler limit s)) =
  [ELive (Ok (worker_number, total_workers));
   EFetch (total_workers - 1) worker_number limit (Ok []);
   ELog DEBUG (IndexQueryTime (elapsed (time_time x2) (time_time x1)) 0);
   ELog INFO DidNotGetAnyWork].
Proof.
  intros Hlive Hfetch. rewrite run_once_step, Hlive. cbn zeta.
  rewrite Hfetch. repeat split.
Qed.

(** C6.  Whenever a call made by the cycle raises (the work source, the
    applier, or the heartbeat handler), [run_once] ends with that same
    exception and the raising call is the last thing the cycle did: it is
    neither retried nor followed by any other call. *)
Theorem errors_propagate heartbeat_handler limit s t1 en t2 x :
  trace (cycle heartbeat_handler limit s) = t1 ++ en :: t2 ->
  raised (ev en) = Some x ->
  outcome (cycle heartbeat_handler limit s) = Raise x /\ t2 = [].
Proof.
  intros Heq Hr.
  exact (disciplined_raise _ _ _ _ _
           (cycle_disciplined heartbeat_handler limit s) Heq Hr).
Qed.

(** ** Further properties of a cycle *)

Lemma loop_complete heartbeat_handler replicas :
  forall s,
    clean (trace (loop heartbeat_handler replicas s)) ->
    Forall (fun en => stop_after en = false)
      (trace (loop heartbeat_handler replicas s)) ->
    applied (trace (loop heartbeat_handler replicas s)) = replicas.
Proof.
  induction replicas as [|replica rest IH]; intros s.
  - reflexivity.
  - rewrite for_replicas_step.
    destruct (live heartbeat_handler (ext s)) as [[[[[wn tw] lg]|x] x1] i1].
    { cbn zeta. destruct (graceful_stop (after s x1 i1)) eqn:Hs1.
      { intros _ Hq. inversion Hq as [|? ? Hq1 _]. discriminate Hq1. }
      destruct (applier replica x1) as [[[u|x] x2] i2].
      - cbn zeta.
        match goal with |- context [for_replicas _ _ _ _ _ ?s3] =>
          specialize (IH s3) end.
        destruct (for_replicas _ _ _ _ _ _) as [[r s4] t].
        unfold trace in *; cbn [snd app] in *. intros Hc Hq.
        do 4 (apply Forall_inv_tail in Hc; apply Forall_inv_tail in Hq).
        cbn. f_equal. now apply IH.
      - intros Hc _. unfold trace in Hc; cbn [snd app] in Hc.
        do 2 apply Forall_inv_tail in Hc. apply Forall_inv in Hc.
        discriminate Hc. }
    intros Hc _. apply Forall_inv in Hc. discriminate Hc.
Qed.

(** X1.  In a cycle in which no call raises and [graceful_stop] is never
    found set, the applier is called on every item of the batch the work
    source returned, once each and in the order returned. *)
Theorem whole_batch_applied heartbeat_handler limit s
    worker_number total_workers logger x1 i1 replicas x2 i2 :
  live heartbeat_handler (ext s)
  = (Ok (worker_number, total_workers, logger), x1, i1) ->
  source (total_workers - 1) worker_number limit x1 = (Ok replicas, x2, i2) ->
  clean (trace (cycle heartbeat_handler limit s)) ->
  Forall (fun en => stop_after en = false)
    (trace (cycle heartbeat_handler limit s)) ->
  applied (trace (cycle heartbeat_handler limit s)) = replicas
  /\ updated (trace (cycle heartbeat_handler limit s)) = replicas.
Proof.
  intros Hlive Hfetch. rewrite run_once_step, Hlive. cbn zeta.
  rewrite Hfetch. cbn zeta.
  destruct replicas as [|replica rest]; [now split|].
  match goal with |- context [for_replicas _ _ _ _ ?rs ?s3] =>
    pose proof (loop_complete heartbeat_handler rs s3) as Hall;
    pose proof (loop_disciplined heartbeat_handler rs s3) as Hd end.
  destruct (for_replicas _ _ _ _ _ _) as [[r s4] t].
  unfold trace in *; cbn [snd app] in *. intros Hc Hq.
  do 3 (apply Forall_inv_tail in Hc; apply Forall_inv_tail in Hq).
  specialize (Hall Hc Hq). cbn [applied updated ev]. split; [exact Hall|].
  rewrite <- Hall. clear - Hc.
  induction t as [|en t IH]; [reflexivity|].
  inversion Hc as [|? ? Hen Ht]; subst. specialize (IH Ht).
  cbn. destruct (ev en) as [| | | |rep [u|x]]; cbn in *;
    rewrite ?IH; reflexivity || discriminate.
Qed.

Lemma guarded_nil (pre : list (Entry Time)) : guarded pre [].
Proof. intros [|e t1] en t2 H; discriminate H. Qed.

Lemma guarded_cons (pre : list (Entry Time)) e tr :
  (is_apply (ev e) = true -> checked pre) ->
  guarded (pre ++ [e]) tr -> guarded pre (e :: tr).
Proof.
  intros Hc Hg [|e' t1] en t2 Heq Ha; inversion Heq; subst.
  - rewrite app_nil_r. exact (Hc Ha).
  - specialize (Hg t1 en t2 eq_refl Ha). now rewrite <- app_assoc in Hg.
Qed.

Lemma loop_guarded heartbeat_handler replicas :
  forall s pre, guarded pre (trace (loop heartbeat_handler replicas s)).
Proof.
  induction replicas as [|replica rest IH]; intros s pre.
  - apply guarded_nil.
  - rewrite for_replicas_step.
    destruct (live heartbeat_handler (ext s)) as [[[[[wn tw] lg]|x] x1] i1].
    2:{ apply guarded_cons; [discriminate | apply guarded_nil]. }
    cbn zeta. destruct (graceful_stop (after s x1 i1)) eqn:Hs1.
    { repeat (apply guarded_cons; [discriminate|]). apply guarded_nil. }
    assert (Hck : forall out t,
      guarded (((pre ++ [ {| ev := ELive (Ok (wn, tw)); stop_after := false |} ])
                  ++ [ {| ev := EIsSet false; stop_after := false |} ])
                  ++ [out]) t ->
      is_apply (ev out) = true ->
      guarded pre ({| ev := ELive (Ok (wn, tw)); stop_after := false |}
                     :: {| ev := EIsSet false; stop_after := false |}
                     :: out :: t)).
    { intros out t Hg Ha.
      apply guarded_cons; [discriminate|].
      apply guarded_cons; [discriminate|].
      apply guarded_cons; [|exact Hg].
      intros _. exists pre, wn, tw. now rewrite <- app_assoc. }
    destruct (applier replica x1) as [[[u|x] x2] i2].
    2:{ apply Hck; [apply guarded_nil | reflexivity]. }
    cbn zeta.
    match goal with |- context [for_replicas _ _ _ _ _ ?s3] =>
      set (s3' := s3) end.
    match goal with |- context [{| ev := EApply replica (Ok u);
                                   stop_after := ?b |}] =>
      set (a := {| ev := EApply replica (Ok u); stop_after := b |}) end.
    match goal with |- context [{| ev := ELog DEBUG ?m; stop_after := ?b |}] =>
      set (l := {| ev := ELog DEBUG m; stop_after := b |}) end.
    specialize (IH s3'
      ((((pre ++ [ {| ev := ELive (Ok (wn, tw)); stop_after := false |} ])
           ++ [ {| ev := EIsSet false; stop_after := false |} ])
           ++ [a]) ++ [l])).
    destruct (for_replicas _ _ _ _ _ _) as [[r s4] t].
    unfold trace in *; cbn [snd app] in *.
    apply Hck; [|reflexivity].
    apply guarded_cons; [discriminate | exact IH].
Qed.

(** X2.  Every call to the applier comes right after a [live()] that
    returned and a [graceful_stop.is_set()] that answered no, with
    [graceful_stop] unset at both. *)
Theorem applier_called_after_check heartbeat_handler limit s
    t1 en t2 replica out :
  trace (cycle heartbeat_handler limit s) = t1 ++ en :: t2 ->
  ev en = EApply replica out ->
  exists t0 worker_number total_workers,
    t1 = t0 ++ [ {| ev := ELive (Ok (worker_number, total_workers));
                    stop_after := false |};
                 {| ev := EIsSet false; stop_after := false |} ].
Proof.
  intros Heq Hev.
  assert (G : guarded [] (trace (cycle heartbeat_handler limit s))).
  { rewrite run_once_step.
    destruct (live heartbeat_handler (ext s)) as [[[[[wn tw] lg]|x] x1] i1].
    2:{ apply guarded_cons; [discriminate | apply guarded_nil]. }
    cbn zeta.
    destruct (source (tw - 1) wn limit x1) as [[[replicas|x] x2] i2].
    2:{ repeat (apply guarded_cons; [discriminate|]). apply guarded_nil. }
    cbn zeta. destruct replicas as [|r0 rest].
    { repeat (apply guarded_cons; [discriminate|]). apply guarded_nil. }
    match goal with |- context [for_replicas _ _ _ _ ?rs ?s3] =>
      pose proof (loop_guarded heartbeat_handler rs s3) as Hg end.
    destruct (for_replicas _ _ _ _ _ _) as [[r s4] t].
    unfold trace in *; cbn [snd app] in *.
    repeat (apply guarded_cons; [discriminate|]). apply Hg. }
  apply (G t1 en t2 Heq). now rewrite Hev.
Qed.

Lemma loop_update_lines heartbeat_handler replicas :
  forall s,
    update_lines (trace (loop heartbeat_handler replicas s)) =
    map id (updated (trace (loop heartbeat_handler replicas s))).
Proof.
  induction replicas as [|replica rest IH]; intros s.
  - reflexivity.
  - rewrite for_replicas_step.
    destruct (live heartbeat_handler (ext s)) as [[[[[wn tw] lg]|x] x1] i1];
      [|reflexivity].
    cbn zeta. destruct (graceful_stop (after s x1 i1)); [reflexivity|].
    destruct (applier replica x1) as [[[u|x] x2] i2]; [|reflexivity].
    cbn zeta.
    match goal with |- context [for_replicas _ _ _ _ _ ?s3] =>
      specialize (IH s3) end.
    destruct (for_replicas _ _ _ _ _ _) as [[r s4] t].
    unfold trace in *. cbn in *. now rewrite IH.
Qed.

(** X3.  The per-item debug lines of a cycle name exactly the items whose
    update returned, in the order of the updates: a line is written for
    each of them and for no other item. *)
Theorem update_lines_name_updated heartbeat_handler limit s :
  update_lines (trace (cycle heartbeat_handler limit s)) =
  map id (updated (trace (cycle heartbeat_handler limit s))).
Proof.
  rewrite run_once_step.
  destruct (live heartbeat_handler (ext s)) as [[[[[wn tw] lg]|x] x1] i1];
    [|reflexivity].
  cbn zeta.
  destruct (source (tw - 1) wn limit x1) as [[[replicas|x] x2] i2];
    [|reflexivity].
  cbn zeta. destruct replicas as [|r0 rest]; [reflexivity|].
  match goal with |- context [for_replicas _ _ _ _ ?rs ?s3] =>
    pose proof (loop_update_lines heartbeat_handler rs s3) as Hl end.
  destruct (for_replicas _ _ _ _ _ _) as [[r s4] t].
  unfold trace in *. cbn in *. exact Hl.
Qed.

Lemma cycle_applied_prefix heartbeat_handler limit s
    worker_number total_workers logger x1 i1 replicas x2 i2 :
  live heartbeat_handler (ext s)
  = (Ok (worker_number, total_workers, logger), x1, i1) ->
  source (total_workers - 1) worker_number limit x1 = (Ok replicas, x2, i2) ->
  exists n,
    applied (trace (cycle heartbeat_handler limit s)) = firstn n replicas.
Proof.
  intros Hlive Hfetch. rewrite run_once_step, Hlive. cbn zeta.
  rewrite Hfetch. cbn zeta.
  destruct replicas as [|replica rest]; [now exists O|].
  match goal with |- context [for_replicas _ _ _ _ ?rs ?s3] =>
    destruct (loop_applied_prefix heartbeat_handler rs s3) as [n Hn] end.
  destruct (for_replicas _ _ _ _ _ _) as [[r s4] t].
  exists n. exact Hn.
Qed.

(** X4.  The applier is only ever called on an item of a batch that the
    work source returned in this same cycle, for this cycle's [limit]. *)
Theorem applies_only_fetched heartbeat_handler limit s replica :
  In replica (applied (trace (cycle heartbeat_handler limit s))) ->
  exists total_workers worker_number replicas stopped,
    In {| ev := EFetch total_workers worker_number limit (Ok replicas);
          stop_after := stopped |}
       (trace (cycle heartbeat_handler limit s))
    /\ In replica replicas.
Proof.
  destruct (live heartbeat_handler (ext s)) as [[[[[wn tw] lg]|x] x1] i1] eqn:Hlive.
  2:{ rewrite run_once_step, Hlive. intros []. }
  destruct (source (tw - 1) wn limit x1) as [[[replicas|x] x2] i2] eqn:Hfetch.
  2:{ rewrite run_once_step, Hlive. cbn zeta. rewrite Hfetch. intros []. }
  destruct (cycle_applied_prefix _ _ _ _ _ _ _ _ _ _ _ Hlive Hfetch)
    as [n Hn].
  rewrite Hn. intros Hin.
  exists (tw - 1), wn, replicas, (graceful_stop (after (after s x1 i1) x2 i2)).
  split.
  - rewrite run_once_step, Hlive. cbn zeta. rewrite Hfetch. cbn zeta.
    destruct replicas as [|r0 rest]; [right; left; reflexivity|].
    destruct (for_replicas _ _ _ _ _ _) as [[r s4] t].
    right; left; reflexivity.
  - rewrite <- (firstn_skipn n replicas). apply in_or_app. now left.
Qed.

(** X5.  When the applier raises on an item, that item is the one at the
    position the cycle had reached: the items before it in the batch have
    all been applied, in order, and no item after it has been. *)
Theorem failed_update_position heartbeat_handler limit s
    worker_number total_workers logger x1 i1 replicas x2 i2
    t1 en t2 replica x :
  live heartbeat_handler (ext s)
  = (Ok (worker_number, total_workers, logger), x1, i1) ->
  source (total_workers - 1) worker_number limit x1 = (Ok replicas, x2, i2) ->
  trace (cycle heartbeat_handler limit s) = t1 ++ en :: t2 ->
  ev en = EApply replica (Raise x) ->
  let k := List.length (applied t1) in
  nth_error replicas k = Some replica
  /\ applied (trace (cycle heartbeat_handler limit s)) = firstn (S k) replicas
  /\ updated (trace (cycle heartbeat_handler limit s)) = firstn k replicas.
Proof.
  intros Hlive Hfetch Heq Hev k.
  destruct (disciplined_raise _ t1 en t2 x
              (cycle_disciplined heartbeat_handler limit s) Heq)
    as [_ ->]; [now rewrite Hev|].
  destruct (cycle_applied_prefix _ _ _ _ _ _ _ _ _ _ _ Hlive Hfetch)
    as [n Hn].
  assert (Happ : applied (trace (cycle heartbeat_handler limit s))
                 = applied t1 ++ [replica]).
  { rewrite Heq, applied_app. cbn. now rewrite Hev. }
  assert (Hk : firstn n replicas = firstn (S k) replicas).
  { apply firstn_of_length. rewrite <- Hn, Happ, length_app. cbn.
    subst k. lia. }
  assert (Hfirst : firstn (S k) replicas = applied t1 ++ [replica])
    by now rewrite <- Hk, <- Hn.
  assert (Hnth : nth_error replicas k = Some replica).
  { pose proof (nth_error_firstn (S k) replicas k) as E.
    replace (Nat.ltb k (S k)) with true in E
      by (symmetry; apply Nat.ltb_lt; lia).
    rewrite <- E, Hfirst, nth_error_app2 by (subst k; lia).
    subst k. now rewrite Nat.sub_diag. }
  split; [exact Hnth|]. split; [now rewrite Hn, Hk|].
  (* the updates that returned are those before the failing one *)
  assert (Hup : updated (trace (cycle heartbeat_handler limit s))
                = applied t1).
  { pose proof (cycle_disciplined heartbeat_handler limit s) as D.
    unfold disciplined in D.
    destruct (outcome (cycle heartbeat_handler limit s)) as [b|y].
    - rewrite Heq in D. apply Forall_app in D as [_ D].
      apply Forall_inv in D. now rewrite Hev in D.
    - destruct D as (t & en' & Ht & Hc & _). rewrite Heq in Ht.
      apply app_inj_tail in Ht as [<- <-].
      rewrite Heq. clear - Hc Hev.
      induction t1 as [|e t1 IH]; cbn.
      + now rewrite Hev.
      + inversion Hc as [|? ? He Ht]; subst. specialize (IH Ht).
        destruct (ev e) as [| | | |rep [u|y]]; cbn in *;
          rewrite ?IH; reflexivity || discriminate. }
  rewrite Hup.
  apply (f_equal (firstn k)) in Hfirst.
  rewrite firstn_firstn in Hfirst.
  replace (Nat.min k (S k)) with k in Hfirst by lia.
  rewrite Hfirst, firstn_app. subst k.
  now rewrite Nat.sub_diag, firstn_all, firstn_O, app_nil_r.
Qed.

Lemma loop_after_stop heartbeat_handler replicas s :
  graceful_stop s = true ->
  applied (trace (loop heartbeat_handler replicas s)) = []
  /\ graceful_stop (final (loop heartbeat_handler replicas s)) = true.
Proof.
  intros Hs. destruct replicas as [|replica rest]; [now split|].
  rewrite for_replicas_step.
  pose proof (stop_kept s) as Hkept.
  destruct (live heartbeat_handler (ext s)) as [[[[[wn tw] lg]|x] x1] i1];
    cbn zeta; [|split; [reflexivity | now apply Hkept]].
  rewrite (Hkept x1 i1 Hs). split; [reflexivity | now apply Hkept].
Qed.

(** X11.  [stop] is final for the work of a cycle: a cycle entered with
    [graceful_stop] set, as [stop] leaves it, calls the applier on no item,
    whatever the work source returns, and ends with [graceful_stop] still
    set, so the same holds of every cycle after it. *)
Theorem nothing_applied_after_stop heartbeat_handler limit s :
  graceful_stop s = true ->
  applied (trace (cycle heartbeat_handler limit s)) = []
  /\ graceful_stop (final (cycle heartbeat_handler limit s)) = true.
Proof.
  intros Hs. rewrite run_once_step.
  destruct (live heartbeat_handler (ext s)) as [[[[[wn tw] lg]|x] x1] i1];
    cbn zeta; [|split; [reflexivity | now apply stop_kept]].
  assert (H1 : graceful_stop (after s x1 i1) = true) by now apply stop_kept.
  destruct (source (tw - 1) wn limit x1) as [[[replicas|x] x2] i2];
    cbn zeta; [|split; [reflexivity | now apply stop_kept]].
  set (s2 := after (after s x1 i1) x2 i2).
  assert (H2 : graceful_stop s2 = true) by now apply stop_kept.
  destruct replicas as [|replica rest].
  { split; [reflexivity|]. unfold final; cbn [fst snd].
    now do 2 apply stop_kept_logged. }
  match goal with |- context [for_replicas _ _ _ _ ?rs ?s3] =>
    destruct (loop_after_stop heartbeat_handler rs s3) as [Ha Hf];
      [now apply stop_kept_logged|] end.
  destruct (for_replicas _ _ _ _ _ _) as [[r s4] t].
  unfold trace, final in *; cbn [fst snd app applied ev] in *.
  now split.
Qed.

End PollingCycleFacts.
(* ================================================================= *)
(** * The concurrency driver: [run] *)

Section ConcurrencyDriverFacts.

Context {X Time : Type}.
Variable time_time : X -> Time.
Variable elapsed : Time -> Time -> Time.
Variable source : Z -> Z -> Z -> External X (list Replica).
Variable applier : Replica -> External X unit.
Variable is_old_db : X -> bool.
Variable run_daemon :
  bool -> string -> Z -> Z ->
  (HeartbeatHandler X Time -> Cycle X Time bool) -> Cycle X Time unit.
Variable is_alive_at : nat -> nat -> bool.

Local Abbreviation driver :=
  (run time_time elapsed source applier is_old_db run_daemon is_alive_at).
Local Abbreviation waiting := (wait (X:=X) (Time:=Time) is_alive_at).
Local Abbreviation joining :=
  (for_each (join (X:=X) (Time:=Time) is_alive_at)).
Local Abbreviation cycle := (run_once time_time elapsed source applier).

Implicit Types (p : Proc X) (thread_list : list Thread).

(** ** [run], branch by branch *)

Lemma run_stale fuel once threads sleep_time limit p :
  is_old_db (ext (env p)) = true ->
  driver fuel once threads sleep_time limit p =
  (Raise (DatabaseException "Database was not updated, daemon won't start"),
   p, [SetupLogging DAEMON_NAME; IsOldDb true]).
Proof.
  intros Hold. unfold run, bind, setup_logging, check_old_db, raise.
  now rewrite Hold.
Qed.

Lemma run_single fuel threads sleep_time limit p :
  is_old_db (ext (env p)) = false ->
  driver fuel true threads sleep_time limit p =
  let '(r, s', did) :=
    run_daemon true DAEMON_NAME 1 10
      (fun heartbeat_handler => cycle heartbeat_handler 1000) (env p) in
  (match r with Ok _ => Ok Returned | Raise x => Raise x end,
   {| env := s'; clock := clock p |},
   [SetupLogging DAEMON_NAME; IsOldDb false;
    LoggingInfo "main: executing one iteration only"; InThisThread did r]).
Proof.
  intros Hfresh.
  unfold run, bind, setup_logging, check_old_db, logging_info,
    in_this_thread, collection_replica_update, default_to, ret.
  rewrite Hfresh. cbn.
  destruct (run_daemon _ _ _ _ _ _) as [[[u|x] s'] did]; reflexivity.
Qed.

Lemma for_each_start thread_list p :
  for_each start thread_list p = (Ok tt, p, map (@ThreadStart Time) thread_list).
Proof.
  induction thread_list as [|t rest IH]; [reflexivity|].
  cbn [for_each]. unfold bind, start at 1. now rewrite IH.
Qed.

Lemma run_threaded fuel threads sleep_time limit p :
  is_old_db (ext (env p)) = false ->
  driver fuel false threads sleep_time limit p =
  let thread_list := threads_of threads sleep_time limit in
  let '(r, p', tr) := waiting fuel thread_list p in
  (r, p',
   [SetupLogging DAEMON_NAME; IsOldDb false;
    LoggingInfo "main: starting threads"]
     ++ map (@ThreadStart Time) thread_list
     ++ LoggingInfo "main: waiting for interrupts" :: tr).
Proof.
  intros Hfresh.
  unfold run, bind, setup_logging, check_old_db, logging_info.
  rewrite Hfresh. cbn [app].
  fold (threads_of threads sleep_time limit).
  rewrite for_each_start. cbn zeta.
  destruct (wait _ _ _ _) as [[r p'] tr]. reflexivity.
Qed.

(** ** Logs of the driver *)

Lemma started_app (tr t : list (DEvent Time)) :
  started (tr ++ t) = started tr ++ started t.
Proof.
  induction tr as [|e tr IH]; [reflexivity|].
  destruct e; cbn; now rewrite IH.
Qed.

Lemma in_thread_app (tr t : list (DEvent Time)) :
  in_thread (tr ++ t) = in_thread tr ++ in_thread t.
Proof.
  induction tr as [|e tr IH]; [reflexivity|].
  destruct e; cbn; now rewrite IH.
Qed.

Lemma asked_alive_app (tr t : list (DEvent Time)) :
  asked_alive (tr ++ t) = asked_alive tr ++ asked_alive t.
Proof.
  induction tr as [|e tr IH]; [reflexivity|].
  destruct e; cbn; now rewrite IH.
Qed.

Lemma log_of_starts thread_list :
  let tr := map (@ThreadStart Time) thread_list in
  started tr = thread_list /\ in_thread tr = [] /\ asked_alive tr = [].
Proof.
  induction thread_list as [|t rest (IH1 & IH2 & IH3)]; cbn in *;
    [now repeat split|].
  now rewrite IH1, IH2, IH3.
Qed.

Lemma log_of_joins thread_list :
  let tr := map (fun t => @Join Time (ident t)) thread_list in
  started tr = [] /\ in_thread tr = [] /\ asked_alive tr = [].
Proof.
  induction thread_list as [|t rest (IH1 & IH2 & IH3)]; cbn in *;
    now repeat split.
Qed.

Lemma log_of_rounds n thread_list :
  let tr := @polling_rounds Time n thread_list in
  started tr = [] /\ in_thread tr = [] /\ Forall (eq O) (asked_alive tr).
Proof.
  induction n as [|n (IH1 & IH2 & IH3)]; cbn in *.
  - now repeat split.
  - destruct (log_of_joins thread_list) as (J1 & J2 & J3).
    rewrite started_app, in_thread_app, asked_alive_app, J1, J2, J3, IH1, IH2.
    repeat split. now constructor.
Qed.

(** ** The [while] loop *)

Lemma joining_spec thread_list :
  forall p, exists c,
    joining thread_list p =
    (Ok tt, {| env := env p; clock := c |},
     map (fun t => Join (ident t)) thread_list) /\
    (clock p <= c)%nat /\
    match thread_list with
    | [] => True
    | first :: _ =>
        is_alive_at (ident first) (clock p) = true -> (S (clock p) <= c)%nat
    end.
Proof.
  induction thread_list as [|t rest IH]; intros p.
  - exists (clock p). destruct p. now repeat split.
  - cbn [for_each]. unfold bind, join at 1.
    destruct (is_alive_at (ident t) (clock p)) eqn:Ht.
    + destruct (IH {| env := env p; clock := S (clock p) |})
        as (c & -> & Hc & _).
      exists c. cbn in *. repeat split. * lia. * lia.
    + destruct (IH p) as (c & -> & Hc & _).
      exists c. cbn in *. repeat split. * lia. * discriminate.
Qed.

Lemma waiting_empty fuel p :
  waiting (S fuel) [] p = (Raise IndexError, p, []).
Proof. reflexivity. Qed.

Lemma waiting_step fuel first rest p :
  ident first = O ->
  waiting (S fuel) (first :: rest) p =
  if is_alive_at O (clock p) then
    let '(_, p1, joins) := joining (first :: rest) p in
    let '(r, p', tr) := waiting fuel (first :: rest) p1 in
    (r, p', IsAlive 0 true :: joins ++ tr)
  else (Ok Returned, p, [IsAlive 0 false]).
Proof.
  intros Hid. set (thread_list := first :: rest). cbn [wait].
  unfold bind at 1. unfold item. subst thread_list. cbn [nth_error].
  set (thread_list := first :: rest). unfold ret at 1. cbn iota.
  unfold bind at 1. unfold is_alive. rewrite Hid. cbn iota.
  destruct (is_alive_at O (clock p)); [|reflexivity].
  unfold bind at 1.
  destruct (joining_spec thread_list p) as (c & -> & _).
  destruct (wait _ _ _ _) as [[r p'] tr]. reflexivity.
Qed.

(** With a first thread, the loop never raises; its log is a number of
    full rounds, followed by the check that found the first thread dead
    if it returned; and it returns only on finding the first thread not
    alive. *)
Lemma waiting_spec fuel first rest :
  ident first = O ->
  forall p, exists c p' n,
    waiting fuel (first :: rest) p =
    (Ok c, p',
     polling_rounds n (first :: rest)
       ++ match c with
          | Returned => [IsAlive 0 false]
          | StillWaiting => []
          end) /\
    env p' = env p /\
    (c = Returned -> is_alive_at O (clock p') = false).
Proof.
  intros Hid. induction fuel as [|fuel IH]; intros p.
  - exists StillWaiting, p, O. now repeat split.
  - rewrite (waiting_step _ _ _ _ Hid).
    destruct (is_alive_at O (clock p)) eqn:Halive.
    + destruct (joining_spec (first :: rest) p) as (c1 & -> & _).
      destruct (IH {| env := env p; clock := c1 |})
        as (c & p' & n & -> & He & Hc).
      exists c, p', (S n). split; [|now split].
      cbn [polling_rounds]. now rewrite <- app_comm_cons, <- app_assoc.
    + exists Returned, p, O. now repeat split.
Qed.

(** Once the first thread has ended, enough rounds make the loop return. *)
Lemma waiting_returns first rest :
  ident first = O ->
  forall fuel T p,
    (T < fuel)%nat ->
    (forall t, (clock p + T <= t)%nat -> is_alive_at O t = false) ->
    outcome (waiting fuel (first :: rest) p) = Ok Returned.
Proof.
  intros Hid. induction fuel as [|fuel IH]; intros T p HT Hdead; [lia|].
  rewrite (waiting_step _ _ _ _ Hid).
  destruct (is_alive_at O (clock p)) eqn:Halive; [|reflexivity].
  destruct T as [|T].
  { rewrite Hdead in Halive by lia. discriminate. }
  destruct (joining_spec (first :: rest) p) as (c1 & -> & _ & Hc1).
  rewrite Hid in Hc1. specialize (Hc1 Halive).
  specialize (IH T {| env := env p; clock := c1 |}).
  destruct (wait _ _ _ _) as [[r p'] tr]. apply IH.
  - lia.
  - intros t Ht. apply Hdead. cbn in Ht. lia.
Qed.

Lemma threads_of_first threads sleep_time limit :
  1 <= threads ->
  exists first rest,
    threads_of threads sleep_time limit = first :: rest /\ ident first = O.
Proof.
  intros H. unfold threads_of, range0.
  destruct (Z.to_nat threads) as [|n] eqn:E; [lia|].
  cbn. eexists _, _. split; reflexivity.
Qed.

Lemma threads_of_none threads sleep_time limit :
  threads <= 0 -> threads_of threads sleep_time limit = [].
Proof.
  intros H. unfold threads_of, range0.
  now replace (Z.to_nat threads) with O by lia.
Qed.

Lemma only_first_asked fuel once threads sleep_time limit p :
  Forall (eq O)
    (asked_alive (trace (driver fuel once threads sleep_time limit p))).
Proof.
  destruct (is_old_db (ext (env p))) eqn:Hdb.
  { rewrite run_stale by assumption. constructor. }
  destruct once.
  { rewrite run_single by assumption.
    destruct (run_daemon _ _ _ _ _ _) as [[r s'] did]. constructor. }
  rewrite run_threaded by assumption. cbn zeta.
  destruct (log_of_starts (threads_of threads sleep_time limit))
    as (_ & _ & Hs).
  destruct (Z.le_gt_cases threads 0) as [Hnone|Hsome].
  - rewrite threads_of_none by assumption.
    destruct fuel; constructor.
  - destruct (threads_of_first threads sleep_time limit ltac:(lia))
      as (first & rest & E & Hid).
    rewrite E in *.
    destruct (waiting_spec fuel first rest Hid p)
      as (c & p' & n & -> & _ & _).
    unfold trace. cbn [snd app asked_alive].
    rewrite asked_alive_app, Hs. cbn [app asked_alive].
    rewrite asked_alive_app.
    apply Forall_app. split.
    + apply log_of_rounds.
    + destruct c; repeat constructor.
Qed.

(** ** The properties of the driver *)

(** C5.  When the schema check reports an old database, [run] raises
    [DatabaseException] having done nothing but set up logging and make
    the check: no thread is started, no loop runs in the calling thread,
    no work is fetched or applied, and the state is as it was. *)
Theorem stale_schema_aborts fuel once threads sleep_time limit p :
  is_old_db (ext (env p)) = true ->
  let r := driver fuel once threads sleep_time limit p in
  outcome r =
    Raise (DatabaseException "Database was not updated, daemon won't start")
  /\ final r = p
  /\ trace r = [SetupLogging DAEMON_NAME; IsOldDb true]
  /\ started (trace r) = []
  /\ in_thread (trace r) = []
  /\ fetch_calls (List.concat (in_thread (trace r))) = []
  /\ applied (List.concat (in_thread (trace r))) = [].
Proof.
  intros Hold r. subst r. rewrite run_stale by assumption.
  now repeat split.
Qed.


(** C8, as amended.  With a current schema, [run(once=False, threads >= 1,
    ...)] starts exactly [threads] threads, each with the same arguments
    [once=False, sleep_time, limit], runs no loop in the calling thread,
    and then polls: as long as the first thread is found alive it joins
    every thread with a timeout, and it returns when it finds the first
    thread not alive -- which happens once that thread has ended.  Nothing
    is said of the other threads at that point. *)
Theorem launches_then_waits_for_first fuel threads sleep_time limit p :
  is_old_db (ext (env p)) = false ->
  1 <= threads ->
  let r := driver fuel false threads sleep_time limit p in
  let thread_list := threads_of threads sleep_time limit in
  started (trace r) = thread_list
  /\ List.length thread_list = Z.to_nat threads
  /\ in_thread (trace r) = []
  /\ (exists n c,
        outcome r = Ok c /\
        trace r =
        [SetupLogging DAEMON_NAME; IsOldDb false;
         LoggingInfo "main: starting threads"]
          ++ map (@ThreadStart Time) thread_list
          ++ [LoggingInfo "main: waiting for interrupts"]
          ++ polling_rounds n thread_list
          ++ match c with
             | Returned => [IsAlive 0 false]
             | StillWaiting => []
             end)
  /\ (outcome r = Ok Returned -> is_alive_at O (clock (final r)) = false)
  /\ (forall T,
        (T < fuel)%nat ->
        (forall t, (clock p + T <= t)%nat -> is_alive_at O t = false) ->
        outcome r = Ok Returned).
Proof.
  intros Hfresh Hthreads r thread_list. subst r.
  rewrite run_threaded by assumption. cbn zeta. fold thread_list.
  destruct (threads_of_first threads sleep_time limit Hthreads)
    as (first & rest & E & Hid).
  fold thread_list in E.
  destruct (log_of_starts thread_list) as (S1 & S2 & _).
  pose proof (waiting_returns first rest Hid fuel) as Hret.
  destruct (waiting_spec fuel first rest Hid p)
    as (c & p' & n & Hw & _ & Hc).
  destruct (log_of_rounds n thread_list) as (R1 & R2 & _).
  rewrite <- E in Hw, Hret. 
  assert (Hlen : List.length thread_list = Z.to_nat threads).
  { unfold thread_list, threads_of, range0.
    now rewrite length_map, length_seq. }
  split; [|split; [exact Hlen|split; [|split; [|split]]]].
  - rewrite Hw. unfold trace. cbn [snd app started].
    rewrite started_app, S1. cbn [started]. rewrite started_app, R1.
    destruct c; cbn; now rewrite app_nil_r.
  - rewrite Hw. unfold trace. cbn [snd app in_thread].
    rewrite in_thread_app, S2. cbn [in_thread app].
    rewrite in_thread_app, R2. now destruct c.
  - exists n, c. rewrite Hw. split; reflexivity.
  - rewrite Hw. unfold outcome, final. cbn [fst snd].
    intros [= ->]. now apply Hc.
  - intros T HT Hdead. specialize (Hret T p HT Hdead).
    destruct (wait _ _ _ _) as [[r0 p0] tr0]. exact Hret.
Qed.

(** C9.  The loop that [run(once=True, ...)] runs (it runs one unless the
    schema check fails) is [run_daemon] with [sleep_time = 10] and
    [run_once] closed over [limit = 1000], the defaults of
    [collection_replica_update]; the [sleep_time] and [limit] given to
    [run] change nothing. *)
Theorem once_mode_passes_defaults fuel threads sleep_time limit p :
  let r := driver fuel true threads sleep_time limit p in
  let loop :=
    run_daemon true DAEMON_NAME 1 10
      (fun heartbeat_handler => cycle heartbeat_handler 1000) (env p) in
  in_thread (trace r)
  = (if is_old_db (ext (env p)) then [] else [trace loop])
  /\ env (final r) = (if is_old_db (ext (env p)) then env p else final loop)
  /\ forall sleep_time' limit',
       driver fuel true threads sleep_time' limit' p = r.
Proof.
  intros r loop. subst r loop. destruct (is_old_db (ext (env p))) eqn:Hdb.
  - rewrite !run_stale by assumption. repeat split.
    intros sleep_time' limit'. now rewrite run_stale.
  - split; [|split].
    3:{ intros sleep_time' limit'. now rewrite !run_single. }
    all: rewrite run_single by assumption;
      destruct (run_daemon _ _ _ _ _ _) as [[r s'] did]; reflexivity.
Qed.

(** C10.  With a current schema, [run(once=False, threads=0, ...)] starts
    no thread and raises [IndexError] at the first evaluation of the
    [while] condition; and in every run the only thread whose liveness is
    asked is the first one. *)
Theorem no_threads_index_error fuel sleep_time limit p :
  is_old_db (ext (env p)) = false ->
  let r := driver (S fuel) false 0 sleep_time limit p in
  outcome r = Raise IndexError
  /\ started (trace r) = []
  /\ final r = p
  /\ forall fuel' once threads,
       Forall (eq O)
         (asked_alive
            (trace (driver fuel' once threads sleep_time limit p))).
Proof.
  intros Hfresh r. subst r. rewrite run_threaded by assumption.
  repeat split. intros. apply only_first_asked.
Qed.

(** ** Further properties of the driver *)

Local Abbreviation thread_target :=
  (target time_time elapsed source applier run_daemon).

(** X6.  In once mode the driver does not catch what the loop raises: with
    a current schema, [run(once=True, ...)] raises the exception
    [run_daemon] ended with, and returns when [run_daemon] returned; its
    last act is that call. *)
Theorem once_mode_outcome fuel threads sleep_time limit p :
  is_old_db (ext (env p)) = false ->
  let loop :=
    run_daemon true DAEMON_NAME 1 10
      (fun heartbeat_handler => cycle heartbeat_handler 1000) (env p) in
  let r := driver fuel true threads sleep_time limit p in
  (forall x, outcome loop = Raise x -> outcome r = Raise x)
  /\ (forall u, outcome loop = Ok u -> outcome r = Ok Returned)
  /\ exists before,
       trace r = before ++ [InThisThread (trace loop) (outcome loop)].
Proof.
  intros Hfresh loop r. subst loop r. rewrite run_single by assumption.
  destruct (run_daemon _ _ _ _ _ _) as [[[u|x] s'] did];
    unfold outcome, trace; cbn [fst snd].
  - split; [discriminate|]. split; [reflexivity|].
    now eexists [_; _; _].
  - split; [now intros y [= ->]|]. split; [discriminate|].
    now eexists [_; _; _].
Qed.

(** X7.  With a current schema, [run(once=False, threads=n, ...)] for any
    [n <= 0], negative values included, starts no thread, asks no thread
    whether it is alive and raises [IndexError]; the state is as it was. *)
Theorem nonpositive_threads_index_error fuel threads sleep_time limit p :
  is_old_db (ext (env p)) = false ->
  threads <= 0 ->
  let r := driver (S fuel) false threads sleep_time limit p in
  outcome r = Raise IndexError
  /\ started (trace r) = []
  /\ asked_alive (trace r) = []
  /\ final r = p.
Proof.
  intros Hfresh Hthreads r. subst r. rewrite run_threaded by assumption.
  cbn zeta. rewrite threads_of_none by assumption. now repeat split.
Qed.

Lemma started_threaded fuel threads sleep_time limit p :
  is_old_db (ext (env p)) = false ->
  started (trace (driver fuel false threads sleep_time limit p))
  = threads_of threads sleep_time limit.
Proof.
  intros Hfresh. rewrite run_threaded by assumption. cbn zeta.
  destruct (Z.le_gt_cases threads 0) as [Hnone|Hsome].
  - rewrite threads_of_none by assumption. now destruct fuel.
  - destruct (threads_of_first threads sleep_time limit ltac:(lia))
      as (first & rest & E & Hid).
    destruct (log_of_starts (threads_of threads sleep_time limit))
      as (S1 & _ & _).
    rewrite E in *.
    destruct (waiting_spec fuel first rest Hid p)
      as (c & p' & n & -> & _ & _).
    destruct (log_of_rounds n (first :: rest)) as (R1 & _ & _).
    unfold trace. cbn [snd app started].
    rewrite started_app, S1. cbn [started]. rewrite started_app, R1.
    destruct c; cbn; now rewrite app_nil_r.
Qed.

(** X8.  With a current schema and [threads=1], the wait is exact: [run]
    starts one thread, never raises, and when it returns every thread it
    started has ended; it returns once that thread has ended. *)
Theorem single_thread_wait fuel sleep_time limit p :
  is_old_db (ext (env p)) = false ->
  let r := driver fuel false 1 sleep_time limit p in
  started (trace r)
  = [ {| ident := 0;
         kwargs := {| kw_once := false; kw_sleep_time := sleep_time;
                      kw_limit := limit |} |} ]
  /\ (exists c, outcome r = Ok c)
  /\ (outcome r = Ok Returned ->
      Forall (fun t => is_alive_at (ident t) (clock (final r)) = false)
        (started (trace r)))
  /\ (forall T,
        (T < fuel)%nat ->
        (forall t, (clock p + T <= t)%nat -> is_alive_at O t = false) ->
        outcome r = Ok Returned).
Proof.
  intros Hfresh r.
  assert (Hs : started (trace r) = threads_of 1 sleep_time limit)
    by now apply started_threaded.
  rewrite Hs. change (threads_of 1 sleep_time limit) with
    [ {| ident := O;
         kwargs := {| kw_once := false; kw_sleep_time := sleep_time;
                      kw_limit := limit |} |} ].
  split; [reflexivity|]. subst r. clear Hs.
  rewrite run_threaded by assumption. cbn zeta.
  change (threads_of 1 sleep_time limit) with
    [ {| ident := O;
         kwargs := {| kw_once := false; kw_sleep_time := sleep_time;
                      kw_limit := limit |} |} ].
  set (first := {| ident := O; kwargs := _ |}).
  pose proof (waiting_returns first [] eq_refl fuel) as Hret.
  destruct (waiting_spec fuel first [] eq_refl p)
    as (c & p' & n & Hw & _ & Hc).
  split; [|split].
  - exists c. now rewrite Hw.
  - rewrite Hw. unfold outcome, final. cbn [fst snd].
    intros [= ->]. constructor; [now apply Hc | constructor].
  - intros T HT Hdead. specialize (Hret T p HT Hdead).
    destruct (wait _ _ _ _) as [[r0 p0] tr0]. exact Hret.
Qed.

(** X10.  Unlike the once branch, the threaded branch forwards its
    settings: every thread [run(once=False, ...)] starts executes
    [run_daemon] with [once=False], the [sleep_time] given to [run], and
    [run_once] closed over the [limit] given to [run]. *)
Theorem threads_get_run_settings fuel threads sleep_time limit p :
  Forall (fun t =>
            thread_target t =
            run_daemon false DAEMON_NAME 1 sleep_time
              (fun heartbeat_handler => cycle heartbeat_handler limit))
    (started (trace (driver fuel false threads sleep_time limit p))).
Proof.
  destruct (is_old_db (ext (env p))) eqn:Hdb.
  { rewrite run_stale by assumption. constructor. }
  rewrite started_threaded by assumption.
  unfold threads_of. apply Forall_map, Forall_forall.
  intros i _. reflexivity.
Qed.

End ConcurrencyDriverFacts.

(* ================================================================= *)
(** * Runs of the small concrete world *)

(** C1 as stated fails: with [limit = 0] and an empty batch the cycle
    returns true, not false. *)
Lemma nonpositive_limit_empty_batch_sleeps :
  let limit := 0 in
  let batch := @nil Replica in
  limit <= 0 /\ len batch = 0 /\
  outcome (Sim.cycle 0 1 batch 0 0 limit) = Ok true /\
  outcome (Sim.cycle 0 1 batch 0 0 limit) <> Ok false.
Proof. cbv zeta. repeat split; [lia | discriminate]. Qed.

Lemma must_sleep_by_batch_size_witness :
  outcome (Sim.cycle 0 1 (Sim.batch_from 0 3) 0 0 5) = Ok true /\
  outcome (Sim.cycle 0 1 (Sim.batch_from 0 3) 0 0 3) = Ok false /\
  outcome (Sim.cycle 0 1 (Sim.batch_from 0 3) 0 0 0) = Ok false /\
  outcome (Sim.cycle 0 1 [] 0 0 (-1)) = Ok true.
Proof.
  split; [|split; [|split]].
  - apply (must_sleep_by_batch_size Sim.now Sim.minus
             (Sim.source (Sim.batch_from 0 3)) (Sim.applier 0 0)
             (Sim.registry 0 1) 5 Sim.boot 0 1 Sim.quiet_logger
             O false (Sim.batch_from 0 3) O false eq_refl eq_refl).
    vm_compute; repeat constructor.
  - apply (must_sleep_by_batch_size Sim.now Sim.minus
             (Sim.source (Sim.batch_from 0 3)) (Sim.applier 0 0)
             (Sim.registry 0 1) 3 Sim.boot 0 1 Sim.quiet_logger
             O false (Sim.batch_from 0 3) O false eq_refl eq_refl).
    vm_compute; repeat constructor.
  - apply (must_sleep_by_batch_size Sim.now Sim.minus
             (Sim.source (Sim.batch_from 0 3)) (Sim.applier 0 0)
             (Sim.registry 0 1) 0 Sim.boot 0 1 Sim.quiet_logger
             O false (Sim.batch_from 0 3) O false eq_refl eq_refl).
    vm_compute; repeat constructor.
  - apply (must_sleep_by_batch_size Sim.now Sim.minus
             (Sim.source []) (Sim.applier 0 0)
             (Sim.registry 0 1) (-1) Sim.boot 0 1 Sim.quiet_logger
             O false [] O false eq_refl eq_refl).
    vm_compute; repeat constructor.
Defined.

(** C2 as stated fails: [live()] reports [total_workers = 1] and the work
    source is called with [total_workers = 0]. *)
Lemma fetch_total_workers_differs :
  live (Sim.registry 0 1) (ext Sim.boot)
  = (Ok (0, 1, Sim.quiet_logger), O, false) /\
  fetch_calls (trace (Sim.cycle 0 1 [] 0 0 5)) = [(0, 0, 5)] /\
  fetch_calls (trace (Sim.cycle 0 1 [] 0 0 5)) <> [(1, 0, 5)].
Proof. repeat split. discriminate. Qed.

Lemma fetch_scoped_to_assignment_witness :
  fetch_calls (trace (Sim.cycle 3 8 (Sim.batch_from 0 2) 0 0 5)) = [(7, 3, 5)].
Proof.
  apply (fetch_scoped_to_assignment Sim.now Sim.minus
           (Sim.source (Sim.batch_from 0 2)) (Sim.applier 0 0)
           (Sim.registry 3 8) 5 Sim.boot 3 8 Sim.quiet_logger O false).
  reflexivity.
Defined.

(** Scenario C: [stop] runs during the third of ten applications. *)
Lemma cooperative_stop_witness :
  let tr := trace (Sim.cycle 0 1 (Sim.batch_from 0 10) 3 0 10) in
  stop_after (nth 13 tr {| ev := EIsSet false; stop_after := false |}) = true /\
  applied tr = firstn 3 (Sim.batch_from 0 10) /\
  List.length (applied tr) = 3%nat.
Proof.
  intros tr. split; [reflexivity|].
  destruct (cooperative_stop Sim.now Sim.minus
              (Sim.source (Sim.batch_from 0 10)) (Sim.applier 3 0)
              (Sim.registry 0 1) 10 Sim.boot 0 1 Sim.quiet_logger O false
              (Sim.batch_from 0 10) O false eq_refl eq_refl)
    as (_ & _ & _ & H).
  apply (H (firstn 13 tr)
           (nth 13 tr {| ev := EIsSet false; stop_after := false |})
           (skipn 14 tr) 3%nat); reflexivity.
Defined.

Lemma empty_batch_sleeps_witness :
  outcome (Sim.cycle 0 1 [] 0 0 1000) = Ok true /\
  applied (trace (Sim.cycle 0 1 [] 0 0 1000)) = [] /\
  map ev (trace (Sim.cycle 0 1 [] 0 0 1000)) =
  [ELive (Ok (0, 1)); EFetch 0 0 1000 (Ok []);
   ELog DEBUG (IndexQueryTime tt 0); ELog INFO DidNotGetAnyWork].
Proof.
  apply (empty_batch_sleeps Sim.now Sim.minus (Sim.source [])
           (Sim.applier 0 0) (Sim.registry 0 1) 1000 Sim.boot 0 1
           Sim.quiet_logger O false O false); reflexivity.
Defined.

(** The applier raises on the second of four items; the work source
    raises. *)
Lemma errors_propagate_witness :
  (outcome (Sim.cycle 0 1 (Sim.batch_from 0 4) 0 2 10) = Raise (Failure 2) /\
   skipn 10 (trace (Sim.cycle 0 1 (Sim.batch_from 0 4) 0 2 10)) = []) /\
  (outcome (Sim.broken_cycle 7 10) = Raise (Failure 7) /\
   skipn 2 (trace (Sim.broken_cycle 7 10)) = []).
Proof.
  split.
  - apply (errors_propagate Sim.now Sim.minus
             (Sim.source (Sim.batch_from 0 4)) (Sim.applier 0 2)
             (Sim.registry 0 1) 10 Sim.boot
             (firstn 9 (trace (Sim.cycle 0 1 (Sim.batch_from 0 4) 0 2 10)))
             {| ev := EApply {| id := "did"; payload := 2 |}
                        (Raise (Failure 2));
                stop_after := false |});
      reflexivity.
  - apply (errors_propagate Sim.now Sim.minus
             (Sim.broken_source 7) (Sim.applier 0 0)
             (Sim.registry 0 1) 10 Sim.boot
             (firstn 1 (trace (Sim.broken_cycle 7 10)))
             {| ev := EFetch 0 0 10 (Raise (Failure 7));
                stop_after := false |});
      reflexivity.
Defined.

Lemma stale_schema_aborts_witness :
  let r := Sim.drive true Sim.first_ends 5 false 4 10 1000 in
  outcome r =
    Raise (DatabaseException "Database was not updated, daemon won't start")
  /\ final r = {| env := Sim.boot; clock := O |}
  /\ trace r = [SetupLogging DAEMON_NAME; IsOldDb true]
  /\ started (trace r) = []
  /\ in_thread (trace r) = []
  /\ fetch_calls (List.concat (in_thread (trace r))) = []
  /\ applied (List.concat (in_thread (trace r))) = [].
Proof.
  apply (stale_schema_aborts Sim.now Sim.minus (Sim.source (Sim.batch_from 0 2))
           (Sim.applier 0 0) (Sim.schema true) Sim.one_iteration
           Sim.first_ends 5 false 4 10 1000 {| env := Sim.boot; clock := O |}).
  reflexivity.
Defined.


(** C8 as stated fails.  On an old database no thread is started.  On a
    current one, with two threads of which the first ends at time 2 and the
    second never does, [run] returns at time 2 with the second thread
    alive. *)
Lemma returns_with_a_thread_alive :
  (let r := Sim.drive true Sim.first_ends 5 false 2 7 3 in
   started (trace r) = [] /\ List.length (started (trace r)) <> 2%nat) /\
  (let r := Sim.drive false Sim.first_ends 5 false 2 7 3 in
   map ident (started (trace r)) = [0; 1]%nat /\
   outcome r = Ok Returned /\
   Sim.first_ends 1 (clock (final r)) = true).
Proof. repeat split. discriminate. Qed.

Lemma launches_then_waits_for_first_witness :
  let r := Sim.drive false Sim.first_ends 5 false 2 7 3 in
  List.length (started (trace r)) = 2%nat /\
  outcome r = Ok Returned /\
  Sim.first_ends 0 (clock (final r)) = false.
Proof.
  intros r.
  destruct (launches_then_waits_for_first Sim.now Sim.minus
              (Sim.source (Sim.batch_from 0 2)) (Sim.applier 0 0)
              (Sim.schema false) Sim.one_iteration Sim.first_ends 5 2 7 3
              {| env := Sim.boot; clock := O |} eq_refl ltac:(lia))
    as (Hs & Hl & _ & _ & Hdead & Hret).
  assert (Hr : outcome r = Ok Returned).
  { apply (Hret 2%nat); [lia|]. intros t Ht. cbn in Ht. unfold Sim.first_ends.
    apply Nat.ltb_ge. exact Ht. }
  split; [|split].
  - unfold r, Sim.drive. rewrite Hs. exact Hl.
  - exact Hr.
  - exact (Hdead Hr).
Defined.

Lemma no_threads_index_error_witness :
  let r := Sim.drive false Sim.first_ends 5 false 0 7 3 in
  outcome r = Raise IndexError
  /\ started (trace r) = []
  /\ final r = {| env := Sim.boot; clock := O |}.
Proof.
  intros r.
  destruct (no_threads_index_error Sim.now Sim.minus
              (Sim.source (Sim.batch_from 0 2)) (Sim.applier 0 0)
              (Sim.schema false) Sim.one_iteration Sim.first_ends 4 7 3
              {| env := Sim.boot; clock := O |} eq_refl) as (H1 & H2 & H3 & _).
  exact (conj H1 (conj H2 H3)).
Defined.

Lemma whole_batch_applied_witness :
  applied (trace (Sim.cycle 0 1 (Sim.batch_from 0 3) 0 0 3))
  = Sim.batch_from 0 3
  /\ updated (trace (Sim.cycle 0 1 (Sim.batch_from 0 3) 0 0 3))
     = Sim.batch_from 0 3.
Proof.
  apply (whole_batch_applied Sim.now Sim.minus
           (Sim.source (Sim.batch_from 0 3)) (Sim.applier 0 0)
           (Sim.registry 0 1) 3 Sim.boot 0 1 Sim.quiet_logger
           O false (Sim.batch_from 0 3) O false eq_refl eq_refl);
    vm_compute; repeat constructor.
Defined.

Lemma applier_called_after_check_witness :
  exists t0 worker_number total_workers,
    firstn 9 (trace (Sim.cycle 0 1 (Sim.batch_from 0 2) 0 0 5))
    = t0 ++ [ {| ev := ELive (Ok (worker_number, total_workers));
                 stop_after := false |};
              {| ev := EIsSet false; stop_after := false |} ].
Proof.
  apply (applier_called_after_check Sim.now Sim.minus
           (Sim.source (Sim.batch_from 0 2)) (Sim.applier 0 0)
           (Sim.registry 0 1) 5 Sim.boot
           (firstn 9 (trace (Sim.cycle 0 1 (Sim.batch_from 0 2) 0 0 5)))
           {| ev := EApply {| id := "did"; payload := 2 |} (Ok tt);
              stop_after := false |}
           (skipn 10 (trace (Sim.cycle 0 1 (Sim.batch_from 0 2) 0 0 5)))
           {| id := "did"; payload := 2 |} (Ok tt));
    reflexivity.
Defined.

Lemma applies_only_fetched_witness :
  exists total_workers worker_number replicas stopped,
    In {| ev := EFetch total_workers worker_number 5 (Ok replicas);
          stop_after := stopped |}
       (trace (Sim.cycle 0 1 (Sim.batch_from 0 2) 0 0 5))
    /\ In {| id := "did"; payload := 2 |} replicas.
Proof.
  apply (applies_only_fetched Sim.now Sim.minus
           (Sim.source (Sim.batch_from 0 2)) (Sim.applier 0 0)
           (Sim.registry 0 1) 5 Sim.boot {| id := "did"; payload := 2 |}).
  vm_compute. right. left. reflexivity.
Defined.

(** The applier raises on the second of four items. *)
Lemma failed_update_position_witness :
  let tr := trace (Sim.cycle 0 1 (Sim.batch_from 0 4) 0 2 10) in
  nth_error (Sim.batch_from 0 4) 1 = Some {| id := "did"; payload := 2 |}
  /\ applied tr = firstn 2 (Sim.batch_from 0 4)
  /\ updated tr = firstn 1 (Sim.batch_from 0 4).
Proof.
  intros tr.
  apply (failed_update_position Sim.now Sim.minus
           (Sim.source (Sim.batch_from 0 4)) (Sim.applier 0 2)
           (Sim.registry 0 1) 10 Sim.boot 0 1 Sim.quiet_logger
           O false (Sim.batch_from 0 4) O false
           (firstn 9 tr)
           {| ev := EApply {| id := "did"; payload := 2 |}
                      (Raise (Failure 2));
              stop_after := false |}
           (skipn 10 tr) {| id := "did"; payload := 2 |} (Failure 2));
    reflexivity.
Defined.

(** In once mode with a work source that raises, [run] raises the same. *)
Lemma once_mode_outcome_witness :
  outcome
    (run Sim.now Sim.minus (Sim.broken_source 7) (Sim.applier 0 0)
       (Sim.schema false) Sim.one_iteration Sim.first_ends 5 true 1 10 1000
       {| env := Sim.boot; clock := O |})
  = Raise (Failure 7).
Proof.
  apply (once_mode_outcome Sim.now Sim.minus (Sim.broken_source 7)
           (Sim.applier 0 0) (Sim.schema false) Sim.one_iteration
           Sim.first_ends 5 1 10 1000 {| env := Sim.boot; clock := O |}
           eq_refl).
  reflexivity.
Defined.

Lemma nonpositive_threads_index_error_witness :
  let r := Sim.drive false Sim.first_ends 5 false (-3) 7 3 in
  outcome r = Raise IndexError
  /\ started (trace r) = []
  /\ asked_alive (trace r) = []
  /\ final r = {| env := Sim.boot; clock := O |}.
Proof.
  apply (nonpositive_threads_index_error Sim.now Sim.minus
           (Sim.source (Sim.batch_from 0 2)) (Sim.applier 0 0)
           (Sim.schema false) Sim.one_iteration Sim.first_ends 4 (-3) 7 3
           {| env := Sim.boot; clock := O |} eq_refl).
  lia.
Defined.

Lemma single_thread_wait_witness :
  let r := Sim.drive false Sim.first_ends 5 false 1 7 3 in
  outcome r = Ok Returned
  /\ Forall (fun t => Sim.first_ends (ident t) (clock (final r)) = false)
       (started (trace r)).
Proof.
  intros r.
  destruct (single_thread_wait Sim.now Sim.minus
              (Sim.source (Sim.batch_from 0 2)) (Sim.applier 0 0)
              (Sim.schema false) Sim.one_iteration Sim.first_ends 5 7 3
              {| env := Sim.boot; clock := O |} eq_refl)
    as (_ & _ & Hdead & Hret).
  assert (Hr : outcome r = Ok Returned).
  { apply (Hret 2%nat); [lia|]. intros t Ht. cbn in Ht. unfold Sim.first_ends.
    apply Nat.ltb_ge. exact Ht. }
  split; [exact Hr | exact (Hdead Hr)].
Defined.

(** [stop] runs, then two cycles over a batch of three items: neither
    applies anything. *)
Lemma nothing_applied_after_stop_witness :
  let first :=
    run_once Sim.now Sim.minus (Sim.source (Sim.batch_from 0 3))
      (Sim.applier 0 0) (Sim.registry 0 1) 3 (stop Sim.boot) in
  let second :=
    run_once Sim.now Sim.minus (Sim.source (Sim.batch_from 0 3))
      (Sim.applier 0 0) (Sim.registry 0 1) 3 (final first) in
  applied (trace first) = [] /\ applied (trace second) = [].
Proof.
  intros first second.
  destruct (nothing_applied_after_stop Sim.now Sim.minus
              (Sim.source (Sim.batch_from 0 3)) (Sim.applier 0 0)
              (Sim.registry 0 1) 3 (stop Sim.boot) eq_refl) as [H1 Hset].
  destruct (nothing_applied_after_stop Sim.now Sim.minus
              (Sim.source (Sim.batch_from 0 3)) (Sim.applier 0 0)
              (Sim.registry 0 1) 3 (final first) Hset) as [H2 _].
  exact (conj H1 H2).
Defined.
